(** * The retrieval pipeline of the agentic RAG chatbot

    A shallow embedding of [src/core] (document parser and chunker, vector
    store, message bus), [src/agents] and the coordinator of [src/main.py],
    followed by the properties of the specification that were checked
    against it.

    Conventions of the embedding.
    - A Python [str] is a [string]; a character stands for a code point
      below 256.  [int] is [Z], [len] results are [Z] as well.
    - A Python call that may raise returns a [Py.result]; [try/except] is a
      [match] on it.
    - Objects are records and every method takes the object state and
      returns the new one next to its value.
    - The collaborators the repository only calls (the sentence embedding
      model, the FAISS index, the text generator, the file readers, the
      clock and the source of random identifiers) are the fields of the
      record [World.t]. *)

From Stdlib Require Import List String Ascii ZArith NArith Lia Bool Arith.
From Stdlib Require Import DecimalString Sorted.
Import ListNotations.

Open Scope string_scope.
Open Scope list_scope.
Open Scope Z_scope.

(** ** Python values and built-ins *)

Module Py.

Inductive exn : Type :=
| ValueError (msg : string)
| IndexError (msg : string)
| AssertionError (msg : string)
| Exception (msg : string).

(** [str(e)] *)
Definition str_exn (e : exn) : string :=
  match e with
  | ValueError m | IndexError m | AssertionError m | Exception m => m
  end.

Inductive result (A : Type) : Type :=
| Ok (a : A)
| Raise (e : exn).
Arguments Ok {A} a.
Arguments Raise {A} e.

Definition bind {A B : Type} (r : result A) (k : A -> result B) : result B :=
  match r with
  | Ok a => k a
  | Raise e => Raise e
  end.

Definition raises {A : Type} (r : result A) : Prop :=
  exists e, r = Raise e.

(** [len(l)] *)
Definition len {A : Type} (l : list A) : Z := Z.of_nat (List.length l).

(** [str.isspace] on one character: the white space code points below
    256 (TAB..CR, FS..US, SPACE, NEL, NBSP). *)
Definition isspace (c : ascii) : bool :=
  let n := N_of_ascii c in
  (((9 <=? n) && (n <=? 13)) || ((28 <=? n) && (n <=? 32))
   || (n =? 133) || (n =? 160))%N.

Fixpoint lstrip (s : string) : string :=
  match s with
  | EmptyString => EmptyString
  | String c s' => if isspace c then lstrip s' else s
  end.

Fixpoint rstrip (s : string) : string :=
  match s with
  | EmptyString => EmptyString
  | String c s' =>
      match rstrip s' with
      | EmptyString => if isspace c then EmptyString else String c EmptyString
      | r => String c r
      end
  end.

(** [s.strip()] *)
Definition strip (s : string) : string := rstrip (lstrip s).

(** Truth value of a [str]: the empty string is false. *)
Definition truthy (s : string) : bool :=
  match s with
  | EmptyString => false
  | String _ _ => true
  end.

Definition starts_word (s : string) : bool :=
  match s with
  | EmptyString => false
  | String c _ => negb (isspace c)
  end.

(** [s.split()]: the maximal runs of characters that are not white
    space, in order. *)
Fixpoint split (s : string) : list string :=
  match s with
  | EmptyString => []
  | String c s' =>
      if isspace c then split s'
      else if starts_word s' then
        match split s' with
        | w :: ws => String c w :: ws
        | [] => [String c EmptyString]
        end
      else String c EmptyString :: split s'
  end.

(** [sep.join(ws)] *)
Definition join (sep : string) (ws : list string) : string :=
  String.concat sep ws.

(** A slice bound brought into [0 .. len]: negative bounds count from
    the end. *)
Definition clamp (n i : Z) : Z :=
  if i <? 0 then Z.max (i + n) 0 else Z.min i n.

(** [l[i:j]] *)
Definition slice {A : Type} (l : list A) (i j : Z) : list A :=
  let lo := clamp (len l) i in
  let hi := clamp (len l) j in
  firstn (Z.to_nat (hi - lo)) (skipn (Z.to_nat lo) l).

(** [s[1:]] on a string. *)
Definition slice_str_from1 (s : string) : string :=
  match s with
  | EmptyString => EmptyString
  | String _ s' => s'
  end.

(** [s[:n]] on a string, for [0 <= n]. *)
Definition str_prefix (n : nat) (s : string) : string :=
  String.substring 0 n s.

(** [l[i]]: negative indices count from the end, anything outside
    raises [IndexError]. *)
Definition index {A : Type} (l : list A) (i : Z) : result A :=
  let j := if i <? 0 then i + len l else i in
  if j <? 0 then Raise (IndexError "list index out of range")
  else match nth_error l (Z.to_nat j) with
       | Some a => Ok a
       | None => Raise (IndexError "list index out of range")
       end.

(** Number of elements of [range(0, stop, step)] for [step <> 0]. *)
Definition range_len (stop step : Z) : Z :=
  if 0 <? step then Z.max 0 ((stop + step - 1) / step)
  else Z.max 0 ((- stop - step - 1) / (- step)).

(** [range(0, stop, step)] as the list of its elements. *)
Definition range0 (stop step : Z) : result (list Z) :=
  if step =? 0 then Raise (ValueError "range() arg 3 must not be zero")
  else Ok (map (fun k => Z.of_nat k * step)
               (seq 0 (Z.to_nat (range_len stop step)))).

(** [str(n)] for an [int]. *)
Definition str_of_Z (n : Z) : string :=
  DecimalString.NilZero.string_of_int (Z.to_int n).

Definition lower_char (c : ascii) : ascii :=
  let n := N_of_ascii c in
  if (((65 <=? n) && (n <=? 90))
      || ((192 <=? n) && (n <=? 222) && negb (n =? 215)))%N
  then ascii_of_N (n + 32) else c.

(** [s.lower()] *)
Fixpoint lower (s : string) : string :=
  match s with
  | EmptyString => EmptyString
  | String c s' => String (lower_char c) (lower s')
  end.

(** [x in l] for strings. *)
Definition mem (x : string) (l : list string) : bool :=
  existsb (String.eqb x) l.

(** [l.pop(i)] for [0 <= i]: the element and the list without it. *)
Fixpoint pop {A : Type} (l : list A) (i : nat) : option (A * list A) :=
  match l, i with
  | [], _ => None
  | a :: l', O => Some (a, l')
  | a :: l', S i' =>
      match pop l' i' with
      | Some (x, r) => Some (x, a :: r)
      | None => None
      end
  end.

(** [enumerate(l)] *)
Definition enumerate {A : Type} (l : list A) : list (Z * A) :=
  combine (map Z.of_nat (seq 0 (List.length l))) l.

(** A [dict] with [str] keys, as the list of its items in insertion
    order.  [d.get(k, default)] *)
Fixpoint dict_get {V : Type} (d : list (string * V)) (k : string)
    (default : V) : V :=
  match d with
  | [] => default
  | (k', v) :: d' => if String.eqb k' k then v else dict_get d' k default
  end.

(** [d[k] = v]: a key already there keeps its place. *)
Fixpoint dict_set {V : Type} (d : list (string * V)) (k : string) (v : V)
  : list (string * V) :=
  match d with
  | [] => [(k, v)]
  | (k', v') :: d' =>
      if String.eqb k' k then (k', v) :: d' else (k', v') :: dict_set d' k v
  end.

End Py.

Notation "x <- r ;; k" := (Py.bind r (fun x => k))
  (at level 61, r at next level, right associativity).

(** ** The collaborators

    What the repository calls but does not define.  Each field is the
    observable outcome of the call; an exception raised inside the
    collaborator is a [Raise]. *)

Module World.
Import Py.

(** What [pandas.read_csv] gives for one file, as far as the parser looks
    at it: the column names, the rows with every value already formatted
    as [f"{val}"] does, and the text of [df.head(10).to_string(index=False)]. *)
Record CsvFrame : Type := {
  columns : list string;
  rows : list (list string);
  head_text : string
}.

Record t : Type := {
  (** [Path(p).suffix], [Path(p).name] and [os.path.basename(p)] *)
  suffix : string -> string;
  name : string -> string;
  basename : string -> string;
  (** [PyPDF2.PdfReader]: the extracted text of every page *)
  pdf_pages : string -> result (list string);
  (** [pptx.Presentation]: for every slide the text of the shapes that
      have a [text] attribute *)
  pptx_slides : string -> result (list (list string));
  (** [docx.Document]: the text of every paragraph *)
  docx_paragraphs : string -> result (list string);
  read_csv : string -> result CsvFrame;
  (** [open(p, 'r', encoding='utf-8').read()] *)
  read_text : string -> result string;
  (** [model.encode(texts)] followed by the division by the L2 norm and
      the cast to float32: one row per text.  Vector components and
      scores are float32 values; the model takes them as exact numbers
      in [Z] (no rounding, no NaN). *)
  encode : list string -> result (list (list Z));
  (** [model.get_sentence_embedding_dimension()] *)
  model_dimension : Z;
  (** the text collected from [generate_content_stream] for a prompt *)
  generate : string -> result string;
  (** [f"{score:.3f}"] *)
  format_score : Z -> string;
  (** [str(uuid4())] and [datetime.now().isoformat()] at the k-th call *)
  uuid4 : nat -> string;
  now : nat -> string
}.

End World.

(** ** [core/document_parser.py] *)

Module DocumentParser.
Import Py.

Inductive DocMetadata : Type :=
| MetaPdf (pages : Z)
| MetaPptx (slides : Z)
| MetaDocx (paragraphs : Z)
| MetaCsv (rows : Z) (columns : list string)
| MetaText (format : string) (size : Z)
| MetaError (error : string).

(** The dictionary a parse returns. *)
Record Document : Type := {
  filename : string;
  content : string;
  chunks : list string;
  metadata : DocMetadata
}.

Definition supported_formats : list string :=
  [".pdf"; ".pptx"; ".docx"; ".csv"; ".txt"; ".md"].

(** [_create_chunks(content, chunk_size, overlap)] *)
Definition _create_chunks (content : string) (chunk_size overlap : Z)
  : result (list string) :=
  if negb (truthy (strip content)) then Ok []
  else
    let words := split content in
    r <- range0 (len words) (chunk_size - overlap) ;;
    Ok (fold_left
          (fun chunks i =>
             let chunk := join " " (slice words i (i + chunk_size)) in
             if truthy (strip chunk) then chunks ++ [strip chunk]
             else chunks)
          r []).

Definition nl : string := String (ascii_of_N 10) EmptyString.

Definition _parse_pdf (w : World.t) (file_path : string) : result Document :=
  pages <- World.pdf_pages w file_path ;;
  let content :=
    fold_left
      (fun acc '(page_num, text) =>
         (acc ++ nl ++ "--- Page " ++ str_of_Z (page_num + 1) ++ " ---"
              ++ nl ++ text ++ nl)%string)
      (enumerate pages) EmptyString in
  chunks <- _create_chunks content 500 50 ;;
  Ok {| filename := World.name w file_path;
        content := content;
        chunks := chunks;
        metadata := MetaPdf (len pages) |}.

Definition _parse_pptx (w : World.t) (file_path : string) : result Document :=
  slides <- World.pptx_slides w file_path ;;
  let content :=
    fold_left
      (fun acc '(slide_num, shapes) =>
         let slide_content :=
           fold_left
             (fun sc text =>
                if truthy text then (sc ++ text ++ nl)%string else sc)
             shapes
             (nl ++ "--- Slide " ++ str_of_Z (slide_num + 1) ++ " ---"
                 ++ nl)%string in
         (acc ++ slide_content)%string)
      (enumerate slides) EmptyString in
  chunks <- _create_chunks content 500 50 ;;
  Ok {| filename := World.name w file_path;
        content := content;
        chunks := chunks;
        metadata := MetaPptx (len slides) |}.

Definition _parse_docx (w : World.t) (file_path : string) : result Document :=
  paragraphs <- World.docx_paragraphs w file_path ;;
  let content :=
    fold_left
      (fun acc text =>
         if truthy (strip text) then (acc ++ text ++ nl)%string else acc)
      paragraphs EmptyString in
  chunks <- _create_chunks content 500 50 ;;
  Ok {| filename := World.name w file_path;
        content := content;
        chunks := chunks;
        metadata := MetaDocx (len paragraphs) |}.

(** One row of the frame as [f"Row {idx + 1}: " + ", ".join(...)]. *)
Definition row_text (cols : list string) (idx : Z) (row : list string)
  : string :=
  ("Row " ++ str_of_Z (idx + 1) ++ ": "
     ++ join ", " (map (fun '(col, val) => col ++ ": " ++ val)
                       (combine cols row)))%string.

Definition _parse_csv (w : World.t) (file_path : string) : result Document :=
  match World.read_csv w file_path with
  | Ok df =>
      let content :=
        ("CSV Data Summary:" ++ nl
           ++ "Columns: " ++ join ", " (World.columns df) ++ nl
           ++ "Rows: " ++ str_of_Z (len (World.rows df)) ++ nl ++ nl
           ++ "Sample Data:" ++ nl
           ++ World.head_text df)%string in
      let chunks :=
        fold_left
          (fun acc '(idx, row) => acc ++ [row_text (World.columns df) idx row])
          (enumerate (World.rows df)) [] in
      Ok {| filename := World.name w file_path;
            content := content;
            chunks := chunks;
            metadata := MetaCsv (len (World.rows df)) (World.columns df) |}
  | Raise e =>
      Ok {| filename := World.name w file_path;
            content := ("Error reading CSV: " ++ str_exn e)%string;
            chunks := [];
            metadata := MetaError (str_exn e) |}
  end.

Definition _parse_text (w : World.t) (file_path : string) : result Document :=
  content <- World.read_text w file_path ;;
  chunks <- _create_chunks content 500 50 ;;
  Ok {| filename := World.name w file_path;
        content := content;
        chunks := chunks;
        metadata :=
          MetaText (slice_str_from1 (World.suffix w file_path))
                   (Z.of_nat (String.length content)) |}.

(** [parse_document(file_path)].  The [elif] chain ends with
    [extension in ['.txt', '.md']]; after the membership test and the four
    tests before it no other extension is left, so it is the [else]
    branch here ([IngestionFacts.supported_rest_is_text]). *)
Definition parse_document (w : World.t) (file_path : string)
  : result Document :=
  let extension := lower (World.suffix w file_path) in
  if negb (mem extension supported_formats) then
    Raise (ValueError ("Unsupported file format: " ++ extension)%string)
  else
    let parsed :=
      if String.eqb extension ".pdf" then _parse_pdf w file_path
      else if String.eqb extension ".pptx" then _parse_pptx w file_path
      else if String.eqb extension ".docx" then _parse_docx w file_path
      else if String.eqb extension ".csv" then _parse_csv w file_path
      else _parse_text w file_path in
    match parsed with
    | Ok d => Ok d
    | Raise e =>
        Ok {| filename := World.name w file_path;
              content := ("Error parsing document: " ++ str_exn e)%string;
              chunks := [];
              metadata := MetaError (str_exn e) |}
    end.

End DocumentParser.

(** ** [core/mcp_protocol.py]: the message bus

    The payload of a message is a dictionary the bus never looks at; the
    bus is generic in its type. *)

Module MCPProtocol.
Import Py.

Section Bus.
Context {P : Type}.

Record MCPMessage : Type := {
  sender : string;
  receiver : string;
  type : string;
  trace_id : string;
  timestamp : string;
  payload : P
}.

(** The bus object.  [calls] is not a field of the source: it counts
    the readings of the clock and of the identifier source made so
    far, and selects the next value the world hands out. *)
Record t : Type := {
  message_queue : list MCPMessage;
  message_history : list MCPMessage;
  current_trace_id : option string;
  calls : nat
}.

Definition init : t :=
  {| message_queue := [];
     message_history := [];
     current_trace_id := None;
     calls := 0 |}.

Definition tick (self : t) : t :=
  {| message_queue := message_queue self;
     message_history := message_history self;
     current_trace_id := current_trace_id self;
     calls := S (calls self) |}.

(** The bus with [queue] as its live queue, everything else kept. *)
Definition with_queue (self : t) (queue : list MCPMessage) : t :=
  {| message_queue := queue;
     message_history := message_history self;
     current_trace_id := current_trace_id self;
     calls := calls self |}.

(** [generate_trace_id()]: [str(uuid4())[:8]] *)
Definition generate_trace_id (w : World.t) (self : t) : string * t :=
  (str_prefix 8 (World.uuid4 w (calls self)), tick self).

(** [send_message(sender, receiver, message_type, payload, trace_id)];
    [not trace_id] holds for [None] and for the empty string. *)
Definition send_message (w : World.t) (self : t)
    (sender receiver message_type : string) (payload : P)
    (trace_id : option string) : string * t :=
  let '(trace_id, self) :=
    match trace_id with
    | Some s => if truthy s then (s, self) else generate_trace_id w self
    | None => generate_trace_id w self
    end in
  let message :=
    {| sender := sender;
       receiver := receiver;
       type := message_type;
       trace_id := trace_id;
       timestamp := World.now w (calls self);
       payload := payload |} in
  (trace_id,
   {| message_queue := message_queue self ++ [message];
      message_history := message_history self ++ [message];
      current_trace_id := current_trace_id self;
      calls := S (calls self) |}).

(** The loop of [receive_message]: the position of the first message
    of the queue addressed to [agent_name], counted from [i]. *)
Fixpoint scan (agent_name : string) (i : nat) (queue : list MCPMessage)
  : option nat :=
  match queue with
  | [] => None
  | message :: rest =>
      if String.eqb (receiver message) agent_name then Some i
      else scan agent_name (S i) rest
  end.

(** [receive_message(agent_name)] *)
Definition receive_message (self : t) (agent_name : string)
  : option MCPMessage * t :=
  match scan agent_name 0 (message_queue self) with
  | Some i =>
      match pop (message_queue self) i with
      | Some (message, queue) =>
          (Some message,
           {| message_queue := queue;
              message_history := message_history self;
              current_trace_id := current_trace_id self;
              calls := calls self |})
      | None => (None, self)
      end
  | None => (None, self)
  end.

(** [msg.trace_id == s] *)
Definition has_trace (s : string) (msg : MCPMessage) : bool :=
  String.eqb (trace_id msg) s.

(** [get_message_history(trace_id)] *)
Definition get_message_history (self : t) (trace_id : option string)
  : list MCPMessage :=
  match trace_id with
  | Some s =>
      if truthy s then
        filter (has_trace s) (message_history self)
      else message_history self
  | None => message_history self
  end.

(** [clear_queue()] *)
Definition clear_queue (self : t) : t := with_queue self [].

End Bus.

Arguments MCPMessage : clear implicits.
Arguments t : clear implicits.

End MCPProtocol.

(** ** The FAISS index [IndexFlatIP]

    The index library is not part of the repository.  Its model keeps the
    rows in insertion order; the label of a row is its offset.  [search]
    follows the contract the specification states for the index (section
    4.3: inner product against every stored row, the [k] best in
    descending score order, ties by ascending insertion order) and what
    the library documents for a request of more results than rows: the
    missing slots carry the label [-1] and the score [-FLT_MAX]. *)

Module Faiss.
Import Py.

Record IndexFlatIP : Type := {
  d : Z;
  xb : list (list Z)
}.

Definition new (d : Z) : IndexFlatIP := {| d := d; xb := [] |}.

Definition ntotal (idx : IndexFlatIP) : Z := len (xb idx).

Definition FLT_MAX : Z := 340282346638528859811704183484516925440.

Definition dot (a b : list Z) : Z :=
  fold_left Z.add (map (fun '(x, y) => x * y) (combine a b)) 0.

Definition has_dim (n : Z) (x : list (list Z)) : bool :=
  forallb (fun row => len row =? n) x.

(** [index.add(x)] *)
Definition add (idx : IndexFlatIP) (x : list (list Z)) : result IndexFlatIP :=
  if has_dim (d idx) x then Ok {| d := d idx; xb := xb idx ++ x |}
  else Raise (AssertionError "").

(** Position of [(score, label)] in a ranking: after every entry whose
    score is at least its own. *)
Fixpoint insert_ranked (x : Z * Z) (l : list (Z * Z)) : list (Z * Z) :=
  match l with
  | [] => [x]
  | y :: l' => if fst y <? fst x then x :: l else y :: insert_ranked x l'
  end.

Definition ranked (scored : list (Z * Z)) : list (Z * Z) :=
  fold_left (fun acc x => insert_ranked x acc) scored [].

Definition search_row (idx : IndexFlatIP) (q : list Z) (k : Z)
  : list (Z * Z) :=
  let scored := map (fun '(i, row) => (dot q row, i)) (enumerate (xb idx)) in
  let top := firstn (Z.to_nat k) (ranked scored) in
  top ++ repeat (- FLT_MAX, -1) (Z.to_nat k - List.length top).

(** [index.search(x, k)]: for every query row the scores and the labels
    of its [k] results. *)
Definition search (idx : IndexFlatIP) (x : list (list Z)) (k : Z)
  : result (list (list Z) * list (list Z)) :=
  if negb (has_dim (d idx) x) then Raise (AssertionError "")
  else if negb (0 <? k) then Raise (AssertionError "")
  else
    let found := map (fun q => search_row idx q k) x in
    Ok (map (map fst) found, map (map snd) found).

End Faiss.

(** ** [core/vector_store.py] *)

Module ChunkMetadata.
Record t : Type := {
  filename : string;
  chunk_id : Z;
  doc_metadata : DocumentParser.DocMetadata;
  chunk_text : string
}.
End ChunkMetadata.

Module SearchResult.
Record t : Type := {
  chunk : string;
  metadata : ChunkMetadata.t;
  score : Z
}.
End SearchResult.

Module Stats.
Record t : Type := {
  total_chunks : Z;
  dimension : Z;
  model : Z
}.
End Stats.

Module VectorStore.
Import Py.

Record t : Type := {
  dimension : Z;
  index : Faiss.IndexFlatIP;
  chunks : list string;
  metadata : list ChunkMetadata.t
}.

(** [__init__] *)
Definition init : t :=
  {| dimension := 384;
     index := Faiss.new 384;
     chunks := [];
     metadata := [] |}.

(** [chunk[:100] + "..." if len(chunk) > 100 else chunk] *)
Definition preview (chunk : string) : string :=
  if 100 <? Z.of_nat (String.length chunk)
  then (str_prefix 100 chunk ++ "...")%string
  else chunk.

(** The two nested loops of [add_documents]: [all_chunks] and
    [all_metadata]. *)
Definition gather (documents : list DocumentParser.Document)
  : list string * list ChunkMetadata.t :=
  fold_left
    (fun acc doc =>
       fold_left
         (fun '(all_chunks, all_metadata) '(i, chunk) =>
            let chunk_metadata :=
              {| ChunkMetadata.filename := DocumentParser.filename doc;
                 ChunkMetadata.chunk_id := i;
                 ChunkMetadata.doc_metadata := DocumentParser.metadata doc;
                 ChunkMetadata.chunk_text := preview chunk |} in
            (all_chunks ++ [chunk], all_metadata ++ [chunk_metadata]))
         (enumerate (DocumentParser.chunks doc)) acc)
    documents ([], []).

(** [add_documents(documents)].  The object is written only after the
    embedding and [index.add] have returned, so a raise leaves it as it
    was. *)
Definition add_documents (w : World.t) (self : t)
    (documents : list DocumentParser.Document) : result t :=
  let '(all_chunks, all_metadata) := gather documents in
  match all_chunks with
  | [] => Ok self
  | _ :: _ =>
      embeddings <- World.encode w all_chunks ;;
      index' <- Faiss.add (index self) embeddings ;;
      Ok {| dimension := dimension self;
            index := index';
            chunks := chunks self ++ all_chunks;
            metadata := metadata self ++ all_metadata |}
  end.

(** The loop of [search] over [zip(scores[0], indices[0])]. *)
Fixpoint collect (self : t) (pairs : list (Z * Z))
    (results : list SearchResult.t) : result (list SearchResult.t) :=
  match pairs with
  | [] => Ok results
  | (score, idx) :: rest =>
      if idx <? len (chunks self) then
        c <- Py.index (chunks self) idx ;;
        m <- Py.index (metadata self) idx ;;
        collect self rest
          (results ++ [ {| SearchResult.chunk := c;
                           SearchResult.metadata := m;
                           SearchResult.score := score |} ])
      else collect self rest results
  end.

(** [search(query, top_k)] *)
Definition search (w : World.t) (self : t) (query : string) (top_k : Z)
  : result (list SearchResult.t) :=
  if Faiss.ntotal (index self) =? 0 then Ok []
  else
    query_embedding <- World.encode w [query] ;;
    found <- Faiss.search (index self) query_embedding top_k ;;
    scores0 <- Py.index (fst found) 0 ;;
    indices0 <- Py.index (snd found) 0 ;;
    collect self (combine scores0 indices0) [].

(** [get_stats()] *)
Definition get_stats (w : World.t) (self : t) : Stats.t :=
  {| Stats.total_chunks := Faiss.ntotal (index self);
     Stats.dimension := dimension self;
     Stats.model := World.model_dimension w |}.

(** [clear()] *)
Definition clear (self : t) : t :=
  {| dimension := dimension self;
     index := Faiss.new (dimension self);
     chunks := [];
     metadata := [] |}.

End VectorStore.

(** ** The payload dictionaries of the agents *)

Module ChunkInfo.
Record t : Type := {
  text : string;
  filename : string;
  score : Z;
  chunk_id : Z
}.
End ChunkInfo.

Module Source.
Record t : Type := {
  filename : string;
  chunk_id : Z;
  score : Z;
  preview : string
}.
End Source.

(** The dictionary an answer is returned in; the keys a branch of the code
    does not set are [None]. *)
Module Response.
Record t : Type := {
  answer : string;
  sources : list Source.t;
  query : option string;
  context_used : option Z;
  error : option string
}.
End Response.

Module Payload.
Import Py.

Inductive t : Type :=
| IngestionComplete (processed_documents : list DocumentParser.Document)
                    (total_documents total_chunks : Z)
| RetrievalReady (status : string) (vector_store_stats : Stats.t)
| ContextResponse (retrieved_context : list ChunkInfo.t) (query : string)
                  (total_results : Z)
| Answer (response : Response.t).

(** [payload["processed_documents"]] *)
Definition processed_documents_of (p : t)
  : result (list DocumentParser.Document) :=
  match p with
  | IngestionComplete docs _ _ => Ok docs
  | _ => Raise (Exception "'processed_documents'")
  end.

(** [payload["retrieved_context"]] *)
Definition retrieved_context_of (p : t) : result (list ChunkInfo.t) :=
  match p with
  | ContextResponse ctx _ _ => Ok ctx
  | _ => Raise (Exception "'retrieved_context'")
  end.

End Payload.

Definition Bus : Type := MCPProtocol.t Payload.t.
Definition Message : Type := MCPProtocol.MCPMessage Payload.t.

(** ** [agents/ingestion_agent.py] *)

Module ProcessingStats.
Record t : Type := {
  total_documents : Z;
  total_chunks : Z;
  formats_processed : list (string * Z)
}.
End ProcessingStats.

Module IngestionAgent.
Import Py.

Definition name : string := "IngestionAgent".

Record t : Type := {
  processed_documents : list DocumentParser.Document
}.

Definition init : t := {| processed_documents := [] |}.

(** The document the [except] branch of the loop records. *)
Definition error_document (w : World.t) (file_path : string) (e : exn)
  : DocumentParser.Document :=
  {| DocumentParser.filename := World.basename w file_path;
     DocumentParser.content := ("Error: " ++ str_exn e)%string;
     DocumentParser.chunks := [];
     DocumentParser.metadata := DocumentParser.MetaError (str_exn e) |}.

(** One turn of the loop of [process_documents]: the document appended
    for [file_path]. *)
Definition process_file (w : World.t) (file_path : string)
  : DocumentParser.Document :=
  match DocumentParser.parse_document w file_path with
  | Ok parsed_doc => parsed_doc
  | Raise e => error_document w file_path e
  end.

Definition total_chunks (docs : list DocumentParser.Document) : Z :=
  fold_left Z.add (map (fun doc => len (DocumentParser.chunks doc)) docs) 0.

(** [process_documents(file_paths, trace_id)] *)
Definition process_documents (w : World.t) (self : t) (mcp : Bus)
    (file_paths : list string) (trace_id : string)
  : list DocumentParser.Document * t * Bus :=
  let processed_docs :=
    fold_left (fun docs file_path => docs ++ [process_file w file_path])
              file_paths [] in
  let self :=
    {| processed_documents := processed_documents self ++ processed_docs |} in
  let '(_, mcp) :=
    MCPProtocol.send_message w mcp name "RetrievalAgent" "INGESTION_COMPLETE"
      (Payload.IngestionComplete processed_docs (len processed_docs)
                                 (total_chunks processed_docs))
      (Some trace_id) in
  (processed_docs, self, mcp).

(** [doc['metadata'].get('format', 'unknown')] *)
Definition format_of (m : DocumentParser.DocMetadata) : string :=
  match m with
  | DocumentParser.MetaPdf _ => "pdf"
  | DocumentParser.MetaPptx _ => "pptx"
  | DocumentParser.MetaDocx _ => "docx"
  | DocumentParser.MetaCsv _ _ => "csv"
  | DocumentParser.MetaText format _ => format
  | DocumentParser.MetaError _ => "unknown"
  end.

(** [get_processing_stats()] *)
Definition get_processing_stats (self : t) : ProcessingStats.t :=
  let formats :=
    fold_left
      (fun formats doc =>
         let fmt := format_of (DocumentParser.metadata doc) in
         dict_set formats fmt (dict_get formats fmt 0 + 1))
      (processed_documents self) [] in
  {| ProcessingStats.total_documents := len (processed_documents self);
     ProcessingStats.total_chunks := total_chunks (processed_documents self);
     ProcessingStats.formats_processed := formats |}.

End IngestionAgent.

(** ** [agents/retrieval_agent.py] *)

Module RetrievalAgent.
Import Py.

Definition name : string := "RetrievalAgent".

Record t : Type := {
  vector_store : VectorStore.t;
  is_initialized : bool
}.

Definition init : t :=
  {| vector_store := VectorStore.init; is_initialized := false |}.

(** [process_ingestion_message(trace_id)].  The message taken from the
    bus is gone from the queue on every path, also when the call
    raises. *)
Definition process_ingestion_message (w : World.t) (self : t) (mcp : Bus)
    (trace_id : string) : result bool * t * Bus :=
  let '(message, mcp) := MCPProtocol.receive_message mcp name in
  match message with
  | None => (Ok false, self, mcp)
  | Some message =>
      if String.eqb (MCPProtocol.type message) "INGESTION_COMPLETE" then
        match Payload.processed_documents_of (MCPProtocol.payload message) with
        | Raise e => (Raise e, self, mcp)
        | Ok processed_documents =>
            match VectorStore.add_documents w (vector_store self)
                                            processed_documents with
            | Raise e => (Raise e, self, mcp)
            | Ok store =>
                let self :=
                  {| vector_store := store; is_initialized := true |} in
                let '(_, mcp) :=
                  MCPProtocol.send_message w mcp name "CoordinatorAgent"
                    "RETRIEVAL_READY"
                    (Payload.RetrievalReady "ready"
                       (VectorStore.get_stats w store))
                    (Some trace_id) in
                (Ok true, self, mcp)
            end
        end
      else (Ok false, self, mcp)
  end.

Definition chunk_info (result : SearchResult.t) : ChunkInfo.t :=
  {| ChunkInfo.text := SearchResult.chunk result;
     ChunkInfo.filename :=
       ChunkMetadata.filename (SearchResult.metadata result);
     ChunkInfo.score := SearchResult.score result;
     ChunkInfo.chunk_id :=
       ChunkMetadata.chunk_id (SearchResult.metadata result) |}.

(** [search_documents(query, top_k, trace_id)]; the agent itself is not
    written. *)
Definition search_documents (w : World.t) (self : t) (mcp : Bus)
    (query : string) (top_k : Z) (trace_id : option string)
  : result (list ChunkInfo.t) * Bus :=
  if negb (is_initialized self) then (Ok [], mcp)
  else
    match VectorStore.search w (vector_store self) query top_k with
    | Raise e => (Raise e, mcp)
    | Ok results =>
        let retrieved_chunks :=
          fold_left (fun acc result => acc ++ [chunk_info result])
                    results [] in
        let send :=
          match trace_id with
          | Some s => truthy s
          | None => false
          end in
        if send then
          let '(_, mcp) :=
            MCPProtocol.send_message w mcp name "LLMResponseAgent"
              "CONTEXT_RESPONSE"
              (Payload.ContextResponse retrieved_chunks query
                                       (len retrieved_chunks))
              trace_id in
          (Ok retrieved_chunks, mcp)
        else (Ok retrieved_chunks, mcp)
    end.

(** [get_vector_store_stats()]; [None] is [{"status": "not_initialized"}]. *)
Definition get_vector_store_stats (w : World.t) (self : t)
  : option Stats.t :=
  if is_initialized self then Some (VectorStore.get_stats w (vector_store self))
  else None.

(** [clear_vector_store()] *)
Definition clear_vector_store (self : t) : t :=
  {| vector_store := VectorStore.clear (vector_store self);
     is_initialized := false |}.

End RetrievalAgent.

(** ** [agents/llm_response_agent.py] *)

Module LLMResponseAgent.
Import Py.

Definition name : string := "LLMResponseAgent".

Definition nl : string := DocumentParser.nl.

(** The answer returned when no context message is found. *)
Definition no_context : Response.t :=
  {| Response.answer :=
       "I apologize, but I couldn't retrieve relevant information to answer your question.";
     Response.sources := [];
     Response.query := None;
     Response.context_used := None;
     Response.error := Some "No context available" |}.

(** [chunk["text"][:150] + "..." if len(chunk["text"]) > 150 else chunk["text"]] *)
Definition preview (text : string) : string :=
  if 150 <? Z.of_nat (String.length text)
  then (str_prefix 150 text ++ "...")%string
  else text.

Definition source_of (chunk : ChunkInfo.t) : Source.t :=
  {| Source.filename := ChunkInfo.filename chunk;
     Source.chunk_id := ChunkInfo.chunk_id chunk;
     Source.score := ChunkInfo.score chunk;
     Source.preview := preview (ChunkInfo.text chunk) |}.

(** The loop over the retrieved context: [context_text] and [sources]. *)
Definition build_context (w : World.t) (retrieved_context : list ChunkInfo.t)
  : string * list Source.t :=
  fold_left
    (fun '(context_text, sources) chunk =>
       ((context_text
           ++ "Document: " ++ ChunkInfo.filename chunk ++ nl
           ++ "Content: " ++ ChunkInfo.text chunk ++ nl
           ++ "Relevance Score: "
           ++ World.format_score w (ChunkInfo.score chunk) ++ nl ++ nl)%string,
        sources ++ [source_of chunk]))
    retrieved_context (EmptyString, []).

Definition prompt_of (context_text query : string) : string :=
  ("You are a helpful AI assistant that answers questions based on provided document context."
     ++ nl ++ nl
     ++ "Context from documents:" ++ nl
     ++ context_text ++ nl ++ nl
     ++ "User Question: " ++ query ++ nl ++ nl
     ++ "Instructions:" ++ nl
     ++ "1. Answer the question based ONLY on the provided context" ++ nl
     ++ "2. Be specific and cite which documents you're referencing" ++ nl
     ++ "3. If the context doesn't contain enough information to answer the question, say so"
     ++ nl
     ++ "4. Provide a clear, concise, and helpful response" ++ nl
     ++ "5. Do not make up information not present in the context" ++ nl ++ nl
     ++ "Answer:")%string.

(** The dictionary of the [except] branch. *)
Definition error_response (sources : list Source.t) (e : exn) : Response.t :=
  {| Response.answer :=
       ("I apologize, but I encountered an error while generating the response: "
          ++ str_exn e)%string;
     Response.sources := sources;
     Response.query := None;
     Response.context_used := None;
     Response.error := Some (str_exn e) |}.

(** [generate_response(query, trace_id)] *)
Definition generate_response (w : World.t) (mcp : Bus)
    (query trace_id : string) : result Response.t * Bus :=
  let '(message, mcp) := MCPProtocol.receive_message mcp name in
  match message with
  | None => (Ok no_context, mcp)
  | Some message =>
      if negb (String.eqb (MCPProtocol.type message) "CONTEXT_RESPONSE")
      then (Ok no_context, mcp)
      else
        match Payload.retrieved_context_of (MCPProtocol.payload message) with
        | Raise e => (Raise e, mcp)
        | Ok retrieved_context =>
            let '(context_text, sources) :=
              build_context w retrieved_context in
            let prompt := prompt_of context_text query in
            match World.generate w prompt with
            | Ok response_text =>
                let response_data :=
                  {| Response.answer := strip response_text;
                     Response.sources := sources;
                     Response.query := Some query;
                     Response.context_used := Some (len retrieved_context);
                     Response.error := None |} in
                let '(_, mcp) :=
                  MCPProtocol.send_message w mcp name "CoordinatorAgent"
                    "RESPONSE_COMPLETE" (Payload.Answer response_data)
                    (Some trace_id) in
                (Ok response_data, mcp)
            | Raise e =>
                let error_response := error_response sources e in
                let '(_, mcp) :=
                  MCPProtocol.send_message w mcp name "CoordinatorAgent"
                    "RESPONSE_ERROR" (Payload.Answer error_response)
                    (Some trace_id) in
                (Ok error_response, mcp)
            end
        end
  end.

End LLMResponseAgent.

(** ** [main.py]: the coordinator

    The bus is the module-level object [mcp]; every method takes it next
    to [self] and returns both. *)

Module CoordinatorAgent.
Import Py.

Definition name : string := "CoordinatorAgent".

Record t : Type := {
  ingestion_agent : IngestionAgent.t;
  retrieval_agent : RetrievalAgent.t;
  documents_processed : bool
}.

(** [__init__] *)
Definition init : t :=
  {| ingestion_agent := IngestionAgent.init;
     retrieval_agent := RetrievalAgent.init;
     documents_processed := false |}.

(** [process_documents(file_paths)] *)
Definition process_documents (w : World.t) (self : t) (mcp : Bus)
    (file_paths : list string) : bool * t * Bus :=
  let '(trace_id, mcp) := MCPProtocol.generate_trace_id w mcp in
  let '(_, ingestion, mcp) :=
    IngestionAgent.process_documents w (ingestion_agent self) mcp
                                     file_paths trace_id in
  let '(success, retrieval, mcp) :=
    RetrievalAgent.process_ingestion_message w (retrieval_agent self) mcp
                                             trace_id in
  match success with
  | Ok true =>
      (true,
       {| ingestion_agent := ingestion;
          retrieval_agent := retrieval;
          documents_processed := true |},
       mcp)
  | Ok false | Raise _ =>
      (false,
       {| ingestion_agent := ingestion;
          retrieval_agent := retrieval;
          documents_processed := documents_processed self |},
       mcp)
  end.

(** The answer given before any document was processed. *)
Definition not_ready : Response.t :=
  {| Response.answer :=
       "Please upload and process documents first before asking questions.";
     Response.sources := [];
     Response.query := None;
     Response.context_used := None;
     Response.error := Some "No documents processed" |}.

(** The dictionary of the [except] branch of [answer_question]. *)
Definition error_answer (e : exn) : Response.t :=
  {| Response.answer :=
       ("I encountered an error while processing your question: "
          ++ str_exn e)%string;
     Response.sources := [];
     Response.query := None;
     Response.context_used := None;
     Response.error := Some (str_exn e) |}.

(** [answer_question(query)] *)
Definition answer_question (w : World.t) (self : t) (mcp : Bus)
    (query : string) : Response.t * t * Bus :=
  if negb (documents_processed self) then (not_ready, self, mcp)
  else
    let '(trace_id, mcp) := MCPProtocol.generate_trace_id w mcp in
    let '(found, mcp) :=
      RetrievalAgent.search_documents w (retrieval_agent self) mcp query 5
                                      (Some trace_id) in
    match found with
    | Raise e => (error_answer e, self, mcp)
    | Ok _ =>
        let '(response, mcp) :=
          LLMResponseAgent.generate_response w mcp query trace_id in
        match response with
        | Ok response => (response, self, mcp)
        | Raise e => (error_answer e, self, mcp)
        end
    end.

(** [clear_system()] *)
Definition clear_system (self : t) (mcp : Bus) : t * Bus :=
  ({| ingestion_agent := IngestionAgent.init;
      retrieval_agent :=
        RetrievalAgent.clear_vector_store (retrieval_agent self);
      documents_processed := false |},
   MCPProtocol.clear_queue mcp).

End CoordinatorAgent.

(** ** Reference notions of the specification *)

Module Spec.
Import Py.

(** [ceil(a / b)] for [0 < b]. *)
Definition ceil_div (a b : Z) : Z := - (- a / b).

(** The chunk count as section 8 of the specification writes it. *)
Definition chunk_count_formula (N chunkSize overlap : Z) : Z :=
  ceil_div (Z.max (N - overlap) 1) (chunkSize - overlap).

(** A text that is empty or made of white space only. *)
Fixpoint blank (s : string) : bool :=
  match s with
  | EmptyString => true
  | String c s' => isspace c && blank s'
  end.

(** A token: not empty, no white space in it. *)
Fixpoint solid (s : string) : bool :=
  match s with
  | EmptyString => true
  | String c s' => negb (isspace c) && solid s'
  end.

Definition is_word (s : string) : Prop :=
  s <> EmptyString /\ solid s = true.

(** The window of [chunk_size] tokens that starts at token [i], joined
    with single spaces. *)
Definition window (words : list string) (chunk_size i : Z) : string :=
  join " " (slice words i (i + chunk_size)).

End Spec.

(** ** Runs of the bus *)

Module BusRun.
Import MCPProtocol.

Section Run.
Context {P : Type}.

(** The arguments of one [send_message] call. *)
Record SendArgs : Type := {
  sender : string;
  receiver : string;
  message_type : string;
  payload : P;
  trace_id : option string
}.

Definition send (w : World.t) (mcp : MCPProtocol.t P) (a : SendArgs)
  : MCPProtocol.t P :=
  snd (send_message w mcp (sender a) (receiver a) (message_type a)
                    (payload a) (trace_id a)).

(** The calls of [sends], one after the other. *)
Definition send_all (w : World.t) (mcp : MCPProtocol.t P)
    (sends : list SendArgs) : MCPProtocol.t P :=
  fold_left (send w) sends mcp.

(** [n] successive [receive_message(agent_name)] calls: what each one
    returned, and the bus they leave. *)
Fixpoint receive_n (mcp : MCPProtocol.t P) (agent_name : string) (n : nat)
  : list (option (MCPMessage P)) * MCPProtocol.t P :=
  match n with
  | O => ([], mcp)
  | S n' =>
      let '(r, mcp) := receive_message mcp agent_name in
      let '(rs, mcp) := receive_n mcp agent_name n' in
      (r :: rs, mcp)
  end.

(** The envelopes of a queue addressed to [agent_name], in queue order. *)
Definition inbox (agent_name : string) (queue : list (MCPMessage P))
  : list (MCPMessage P) :=
  filter (fun m => String.eqb (MCPProtocol.receiver m) agent_name) queue.

(** The envelope [m] is addressed to another agent than [agent]. *)
Definition not_for (agent : string) (m : MCPMessage P) : Prop :=
  MCPProtocol.receiver m <> agent.

(** What an envelope carries of the call that made it. *)
Definition call_of (m : MCPMessage P) : string * string * string * P :=
  (MCPProtocol.sender m, MCPProtocol.receiver m, MCPProtocol.type m,
   MCPProtocol.payload m).

Definition call_of_args (a : SendArgs) : string * string * string * P :=
  (sender a, receiver a, message_type a, payload a).

End Run.

Arguments SendArgs : clear implicits.

End BusRun.

(** ** Arbitrary calls on the bus *)

Module BusOps.
Import MCPProtocol.

(** [l] is [l'] with some elements left out. *)
Inductive subseq {A : Type} : list A -> list A -> Prop :=
| subseq_nil : subseq [] []
| subseq_skip (x : A) (l l' : list A) : subseq l l' -> subseq l (x :: l')
| subseq_keep (x : A) (l l' : list A) :
    subseq l l' -> subseq (x :: l) (x :: l').

Section Ops.
Context {P : Type}.

Inductive op : Type :=
| Send (a : BusRun.SendArgs P)
| Receive (agent_name : string)
| ClearQueue
| GenerateTraceId.

(** The bus after one call. *)
Definition step (w : World.t) (mcp : MCPProtocol.t P) (o : op)
  : MCPProtocol.t P :=
  match o with
  | Send a => BusRun.send w mcp a
  | Receive agent_name => snd (receive_message mcp agent_name)
  | ClearQueue => clear_queue mcp
  | GenerateTraceId => snd (generate_trace_id w mcp)
  end.

Definition run (w : World.t) (mcp : MCPProtocol.t P) (ops : list op)
  : MCPProtocol.t P :=
  fold_left (step w) ops mcp.

(** The arguments of the [send_message] calls among [ops], in order. *)
Definition sends_of (ops : list op) : list (BusRun.SendArgs P) :=
  flat_map (fun o => match o with Send a => [a] | _ => [] end) ops.

End Ops.

Arguments op : clear implicits.

End BusOps.

(** ** Runs of the vector store *)

Module StoreRun.
Import Py.

Inductive op : Type :=
| AddDocuments (documents : list DocumentParser.Document)
| Search (query : string) (top_k : Z)
| Clear.

(** The numbered chunks [l] of [doc], each with the metadata entry that
    describes it: file name and metadata of its document, its ordinal in
    the document, the preview of its text. *)
Definition entries_of (doc : DocumentParser.Document) (l : list (Z * string))
  : list (string * ChunkMetadata.t) :=
  map (fun '(i, chunk) =>
         (chunk,
          {| ChunkMetadata.filename := DocumentParser.filename doc;
             ChunkMetadata.chunk_id := i;
             ChunkMetadata.doc_metadata := DocumentParser.metadata doc;
             ChunkMetadata.chunk_text := VectorStore.preview chunk |}))
      l.

(** The chunks of a batch in insertion order, each with its entry. *)
Definition entries (documents : list DocumentParser.Document)
  : list (string * ChunkMetadata.t) :=
  flat_map (fun doc => entries_of doc (enumerate (DocumentParser.chunks doc)))
           documents.

(** One call on the store object, next to the log of what was inserted
    since the last [clear].  A call that raises leaves the object as it
    was; [search] does not write it. *)
Definition step (w : World.t)
    (state : VectorStore.t * list (string * ChunkMetadata.t)) (o : op)
  : VectorStore.t * list (string * ChunkMetadata.t) :=
  let '(store, log) := state in
  match o with
  | AddDocuments documents =>
      match VectorStore.add_documents w store documents with
      | Ok store' => (store', log ++ entries documents)
      | Raise _ => (store, log)
      end
  | Search query top_k => (store, log)
  | Clear => (VectorStore.clear store, [])
  end.

Definition run (w : World.t) (ops : list op)
  : VectorStore.t * list (string * ChunkMetadata.t) :=
  fold_left (step w) ops (VectorStore.init, []).

(** The embedding function returns one vector per text. *)
Definition one_row_per_text (w : World.t) : Prop :=
  forall texts rows,
    World.encode w texts = Ok rows -> List.length rows = List.length texts.

(** Rows, chunks and metadata go together. *)
Definition aligned (store : VectorStore.t) : Prop :=
  Faiss.ntotal (VectorStore.index store) = len (VectorStore.chunks store)
  /\ len (VectorStore.chunks store) = len (VectorStore.metadata store).



(** What holds of the store and the log after every call. *)
Definition consistent
    (state : VectorStore.t * list (string * ChunkMetadata.t)) : Prop :=
  aligned (fst state)
  /\ VectorStore.chunks (fst state) = map fst (snd state)
  /\ VectorStore.metadata (fst state) = map snd (snd state).

End StoreRun.

(** ** Runs of the coordinator *)

Module CoordRun.
Import Py.

Inductive op : Type :=
| ProcessDocuments (file_paths : list string)
| AnswerQuestion (query : string)
| ClearSystem.

Inductive outcome : Type :=
| Processed (ok : bool)
| Answered (response : Response.t)
| Cleared.

(** The coordinator object and the bus. *)
Definition state : Type := CoordinatorAgent.t * Bus.

Definition start : state := (CoordinatorAgent.init, MCPProtocol.init).

(** One call on the coordinator: what it returned and the state it
    leaves. *)
Definition step (w : World.t) (st : state) (o : op) : outcome * state :=
  match o with
  | ProcessDocuments file_paths =>
      let '(ok, self, mcp) :=
        CoordinatorAgent.process_documents w (fst st) (snd st) file_paths in
      (Processed ok, (self, mcp))
  | AnswerQuestion query =>
      let '(response, self, mcp) :=
        CoordinatorAgent.answer_question w (fst st) (snd st) query in
      (Answered response, (self, mcp))
  | ClearSystem =>
      (Cleared, CoordinatorAgent.clear_system (fst st) (snd st))
  end.

(** The calls of [ops] from [st]: the outcomes so far extended by theirs,
    and the last state. *)
Definition run_from (w : World.t) (outs : list outcome) (st : state)
    (ops : list op) : list outcome * state :=
  fold_left
    (fun '(outs, st) o => let '(out, st) := step w st o in (outs ++ [out], st))
    ops (outs, st).

Definition run (w : World.t) (ops : list op) : list outcome * state :=
  run_from w [] start ops.

(** The pipeline is ready after a run when a [process_documents] call
    returned [True] and no [clear_system] call came after it. *)
Definition ready_next (ready : bool) (out : outcome) : bool :=
  match out with
  | Processed true => true
  | Cleared => false
  | Processed false | Answered _ => ready
  end.

Definition ready_after (outs : list outcome) : bool :=
  fold_left ready_next outs false.

(** What holds of the outcomes and the state after every call: the flag
    of the coordinator says whether the pipeline is ready, and no envelope
    is left queued for the retrieval agent. *)
Definition settled (r : list outcome * state) : Prop :=
  CoordinatorAgent.documents_processed (fst (snd r)) = ready_after (fst r)
  /\ Forall (BusRun.not_for RetrievalAgent.name)
            (MCPProtocol.message_queue (snd (snd r))).

(** The exception that stops the text extraction of a file, if any: the
    extension is not a supported one, or the reader of its format
    raises. *)
Definition error_of {A : Type} (r : result A) : option exn :=
  match r with
  | Ok _ => None
  | Raise e => Some e
  end.

Definition extraction_error (w : World.t) (file_path : string) : option exn :=
  let extension := lower (World.suffix w file_path) in
  if negb (mem extension DocumentParser.supported_formats) then
    Some (ValueError ("Unsupported file format: " ++ extension)%string)
  else if String.eqb extension ".pdf" then
    error_of (World.pdf_pages w file_path)
  else if String.eqb extension ".pptx" then
    error_of (World.pptx_slides w file_path)
  else if String.eqb extension ".docx" then
    error_of (World.docx_paragraphs w file_path)
  else if String.eqb extension ".csv" then
    error_of (World.read_csv w file_path)
  else error_of (World.read_text w file_path).

(** A document recorded for a failed file: no chunk, the message of the
    error as its metadata and at the end of its content. *)
Definition error_record (d : DocumentParser.Document) (e : exn) : Prop :=
  DocumentParser.chunks d = []
  /\ DocumentParser.metadata d = DocumentParser.MetaError (str_exn e)
  /\ exists prefix,
       DocumentParser.content d = (prefix ++ str_exn e)%string.

(** What every state of a run satisfies beyond [settled]: the queue holds
    envelopes for the coordinator only, the retrieval agent is initialised
    exactly when the coordinator has its flag up, and the store has the
    dimension it was made with. *)
Definition coherent (st : state) : Prop :=
  Forall (fun m => MCPProtocol.receiver m = CoordinatorAgent.name)
         (MCPProtocol.message_queue (snd st))
  /\ RetrievalAgent.is_initialized
       (CoordinatorAgent.retrieval_agent (fst st))
     = CoordinatorAgent.documents_processed (fst st)
  /\ VectorStore.dimension
       (RetrievalAgent.vector_store
          (CoordinatorAgent.retrieval_agent (fst st))) = 384.

(** The documents of a list whose metadata give the format [fmt]; a
    document recorded for a failed file has none and counts as
    ["unknown"]. *)
Definition with_format (fmt : string) (docs : list DocumentParser.Document)
  : list DocumentParser.Document :=
  filter (fun d =>
            String.eqb (IngestionAgent.format_of (DocumentParser.metadata d))
                       fmt)
         docs.

(** The sum of the counts of a dictionary. *)
Definition counts_sum (d : list (string * Z)) : Z :=
  fold_right Z.add 0 (map snd d).

(** The trace id a coordinator call draws when it starts on [mcp]. *)
Definition next_trace_id (w : World.t) (mcp : Bus) : string :=
  str_prefix 8 (World.uuid4 w (MCPProtocol.calls mcp)).

End CoordRun.

(** ** A small world to run the model in *)

Module Example.
Import Py.

Definition suffix (p : string) : string :=
  if String.eqb p "notes.txt" then ".txt"
  else if String.eqb p "broken.PDF" then ".PDF"
  else if String.eqb p "image.png" then ".png"
  else EmptyString.

Definition read_text (p : string) : result string :=
  if String.eqb p "notes.txt" then Ok "alpha beta gamma"
  else Raise (Exception "No such file or directory").

(** One row of 384 components per text. *)
Definition encode (texts : list string) : result (list (list Z)) :=
  Ok (map (fun t => Z.of_nat (String.length t) :: repeat 0 383%nat) texts).

Definition world_with (generate : string -> result string) : World.t :=
  {| World.suffix := suffix;
     World.name := fun p => p;
     World.basename := fun p => p;
     World.pdf_pages := fun _ => Raise (Exception "EOF marker not found");
     World.pptx_slides := fun _ => Raise (Exception "Package not found");
     World.docx_paragraphs := fun _ => Raise (Exception "Package not found");
     World.read_csv := fun _ => Raise (Exception "No columns to parse from file");
     World.read_text := read_text;
     World.encode := encode;
     World.model_dimension := 384;
     World.generate := generate;
     World.format_score := str_of_Z;
     World.uuid4 := fun k => ("0000000" ++ str_of_Z (Z.of_nat k) ++ "-4a1c")%string;
     World.now := fun k => ("t" ++ str_of_Z (Z.of_nat k))%string |}.

(** A world whose generator answers, and one whose generator is down. *)
Definition world : World.t := world_with (fun _ => Ok " An answer. ").

Definition world_down : World.t :=
  world_with (fun _ => Raise (Exception "503 UNAVAILABLE")).

Definition envelope (sender receiver type : string) (payload : Payload.t)
  : Message :=
  {| MCPProtocol.sender := sender;
     MCPProtocol.receiver := receiver;
     MCPProtocol.type := type;
     MCPProtocol.trace_id := "00000000";
     MCPProtocol.timestamp := "t0";
     MCPProtocol.payload := payload |}.

Definition stats0 : Stats.t :=
  {| Stats.total_chunks := 0; Stats.dimension := 384; Stats.model := 384 |}.

Definition to_llm : Message :=
  envelope "RetrievalAgent" "LLMResponseAgent" "CONTEXT_RESPONSE"
           (Payload.ContextResponse [] "q" 0).

Definition stray : Message :=
  envelope "CoordinatorAgent" "RetrievalAgent" "RETRIEVAL_READY"
           (Payload.RetrievalReady "ready" stats0).

Definition ingested : Message :=
  envelope "IngestionAgent" "RetrievalAgent" "INGESTION_COMPLETE"
           (Payload.IngestionComplete [] 0 0).

(** A world that also holds a CSV file of two rows. *)
Definition frame : World.CsvFrame :=
  {| World.columns := ["name"; "age"];
     World.rows := [["Ada"; "36"]; ["Alan"; "41"]];
     World.head_text := "name age" |}.

Definition world_csv : World.t :=
  {| World.suffix := fun p => if String.eqb p "people.CSV" then ".CSV"
                              else suffix p;
     World.name := fun p => p;
     World.basename := fun p => p;
     World.pdf_pages := World.pdf_pages world;
     World.pptx_slides := World.pptx_slides world;
     World.docx_paragraphs := World.docx_paragraphs world;
     World.read_csv := fun p => if String.eqb p "people.CSV" then Ok frame
                                else World.read_csv world p;
     World.read_text := read_text;
     World.encode := fun _ => Raise (Exception "model not loaded");
     World.model_dimension := 384;
     World.generate := World.generate world;
     World.format_score := str_of_Z;
     World.uuid4 := World.uuid4 world;
     World.now := World.now world |}.

(** A world whose embedding model fails on the query ["fail"]. *)
Definition world_flaky : World.t :=
  {| World.suffix := suffix;
     World.name := fun p => p;
     World.basename := fun p => p;
     World.pdf_pages := World.pdf_pages world;
     World.pptx_slides := World.pptx_slides world;
     World.docx_paragraphs := World.docx_paragraphs world;
     World.read_csv := World.read_csv world;
     World.read_text := read_text;
     World.encode :=
       fun texts =>
         if mem "fail" texts then Raise (Exception "CUDA out of memory")
         else encode texts;
     World.model_dimension := 384;
     World.generate := World.generate world;
     World.format_score := str_of_Z;
     World.uuid4 := World.uuid4 world;
     World.now := World.now world |}.

(** A text of [n] tokens. *)
Definition tokens (n : nat) : string := String.concat " " (repeat "w" n).

Definition bus_of (queue : list Message) : Bus :=
  MCPProtocol.with_queue MCPProtocol.init queue.

(** One document of two chunks, and the store that holds it. *)
Definition notes : DocumentParser.Document :=
  {| DocumentParser.filename := "notes.txt";
     DocumentParser.content := "alpha beta gamma";
     DocumentParser.chunks := ["alpha beta"; "gamma"];
     DocumentParser.metadata := DocumentParser.MetaText "txt" 16 |}.

Definition store_of (documents : list DocumentParser.Document)
  : VectorStore.t :=
  fst (StoreRun.run world [StoreRun.AddDocuments documents]).

(** A retrieved context of two chunks and the envelope that carries it. *)
Definition context : list ChunkInfo.t :=
  [{| ChunkInfo.text := "alpha beta";
      ChunkInfo.filename := "notes.txt";
      ChunkInfo.score := 40;
      ChunkInfo.chunk_id := 0 |};
   {| ChunkInfo.text := "gamma";
      ChunkInfo.filename := "notes.txt";
      ChunkInfo.score := 20;
      ChunkInfo.chunk_id := 1 |}].

Definition context_response : Message :=
  envelope "RetrievalAgent" "LLMResponseAgent" "CONTEXT_RESPONSE"
           (Payload.ContextResponse context "beta" 2).

(** A session of the coordinator: a batch with a readable file, a
    damaged one and one of an unsupported format, a question, a reset. *)
Definition batch : list string := ["notes.txt"; "broken.PDF"; "image.png"].

Definition session : list CoordRun.op :=
  [CoordRun.ProcessDocuments batch; CoordRun.AnswerQuestion "beta";
   CoordRun.ClearSystem].

(** The results of the search for ["beta"] once the batch is processed. *)
Definition found : list SearchResult.t :=
  match VectorStore.search world
          (RetrievalAgent.vector_store
             (CoordinatorAgent.retrieval_agent
                (fst (snd (CoordRun.run world
                             [CoordRun.ProcessDocuments batch])))))
          "beta" 5 with
  | Ok results => results
  | Raise _ => []
  end.

(** The arguments of a send to the retrieval agent. *)
Definition to_retrieval : BusRun.SendArgs Payload.t :=
  {| BusRun.sender := "IngestionAgent";
     BusRun.receiver := "RetrievalAgent";
     BusRun.message_type := "INGESTION_COMPLETE";
     BusRun.payload := Payload.IngestionComplete [] 0 0;
     BusRun.trace_id := Some "00000000" |}.

(** The store after the batch and then the readable file once more. *)
Definition twice : VectorStore.t :=
  fst (StoreRun.run world
         [StoreRun.AddDocuments (map (IngestionAgent.process_file world) batch);
          StoreRun.AddDocuments
            (map (IngestionAgent.process_file world) ["notes.txt"])]).

Definition calls : list StoreRun.op :=
  [StoreRun.AddDocuments [notes]; StoreRun.Search "beta" 5; StoreRun.Clear;
   StoreRun.AddDocuments [notes; notes]; StoreRun.Search "gamma" 1].

End Example.

(** * Properties *)

(** ** Strings, slices and ranges *)

Module PyFacts.
Import Py Spec.

Lemma truthy_false (s : string) : truthy s = false <-> s = EmptyString.
Proof. destruct s; simpl; split; congruence. Qed.

Lemma truthy_true (s : string) : truthy s = true <-> s <> EmptyString.
Proof. destruct s; simpl; split; congruence. Qed.

Lemma lstrip_blank (s : string) : blank s = true -> lstrip s = EmptyString.
Proof.
  induction s as [|c s IH]; simpl; auto.
  destruct (isspace c); simpl; auto; discriminate.
Qed.

Lemma lstrip_empty_blank (s : string) :
  lstrip s = EmptyString -> blank s = true.
Proof.
  induction s as [|c s IH]; simpl; auto.
  destruct (isspace c); simpl; auto; discriminate.
Qed.

Lemma lstrip_head (s : string) :
  lstrip s = EmptyString \/
  exists c r, lstrip s = String c r /\ isspace c = false.
Proof.
  induction s as [|c s IH]; simpl; auto.
  destruct (isspace c) eqn:E; auto.
  right; eauto.
Qed.

Lemma rstrip_head (c : ascii) (s : string) :
  isspace c = false -> rstrip (String c s) <> EmptyString.
Proof.
  intros E; simpl; rewrite E; destruct (rstrip s); discriminate.
Qed.

Lemma strip_blank (s : string) :
  blank s = true <-> truthy (strip s) = false.
Proof.
  unfold strip; split.
  - intros B; rewrite (lstrip_blank _ B); reflexivity.
  - intros T; apply lstrip_empty_blank.
    destruct (lstrip_head s) as [E | (c & r & E & Hc)]; auto.
    rewrite E in T; apply truthy_false in T.
    now apply rstrip_head in T.
Qed.

Lemma split_blank (s : string) : blank s = true <-> split s = [].
Proof.
  induction s as [|c s IH]; simpl.
  - tauto.
  - destruct (isspace c); simpl.
    + exact IH.
    + split; [discriminate|].
      destruct (starts_word s); [destruct (split s)|]; discriminate.
Qed.

Lemma split_words (s : string) : Forall is_word (split s).
Proof.
  induction s as [|c s IH]; simpl; [constructor|].
  destruct (isspace c) eqn:E; auto.
  assert (W : is_word (String c EmptyString)).
  { split; [discriminate | simpl; now rewrite E]. }
  destruct (starts_word s).
  - destruct (split s) as [|w ws]; [now constructor|].
    inversion IH as [|? ? [Hn Hs] Hws]; subst.
    constructor; auto.
    split; [discriminate | simpl; now rewrite E, Hs].
  - now constructor.
Qed.

Lemma solid_rstrip (s : string) : solid s = true -> rstrip s = s.
Proof.
  induction s as [|c s IH]; simpl; auto.
  intros H; apply andb_prop in H as [Hc Hs].
  rewrite (IH Hs); destruct s; auto.
  apply negb_true_iff in Hc; now rewrite Hc.
Qed.

Lemma rstrip_app (s1 s2 : string) :
  s2 <> EmptyString -> rstrip s2 = s2 ->
  rstrip (s1 ++ s2)%string = (s1 ++ s2)%string.
Proof.
  intros Hn Hr; induction s1 as [|c s1 IH]; simpl; auto.
  rewrite IH.
  destruct (s1 ++ s2)%string eqn:E; auto.
  destruct s1; simpl in E; congruence.
Qed.

(** A join of tokens has nothing to strip. *)
Lemma join_words_rstrip (ws : list string) :
  Forall is_word ws -> ws <> [] ->
  rstrip (join " " ws) = join " " ws /\ join " " ws <> EmptyString.
Proof.
  induction ws as [|w ws IH]; [congruence|].
  intros F _; inversion F as [|? ? [Hn Hs] Fws]; subst.
  destruct ws as [|w' ws].
  - simpl; split; auto using solid_rstrip.
  - destruct (IH Fws) as [Hr Hne]; [discriminate|].
    change (join " " (w :: w' :: ws))
      with (w ++ (" " ++ join " " (w' :: ws)))%string.
    split.
    + rewrite !rstrip_app; auto.
      * destruct (join " " (w' :: ws)); simpl; congruence.
      * apply rstrip_app; auto.
    + destruct w; simpl; congruence.
Qed.

Lemma join_words_lstrip (ws : list string) :
  Forall is_word ws -> lstrip (join " " ws) = join " " ws.
Proof.
  intros F; destruct ws as [|w ws]; auto.
  inversion F as [|? ? [Hn Hs] Fws]; subst.
  destruct w as [|c w]; [congruence|].
  simpl in Hs; apply andb_prop in Hs as [Hc _].
  apply negb_true_iff in Hc.
  destruct ws; simpl; now rewrite Hc.
Qed.

Lemma strip_join_words (ws : list string) :
  Forall is_word ws -> ws <> [] ->
  strip (join " " ws) = join " " ws /\ truthy (join " " ws) = true.
Proof.
  intros F Hn; unfold strip.
  rewrite (join_words_lstrip _ F).
  destruct (join_words_rstrip _ F Hn) as [Hr He].
  split; auto; now apply truthy_true.
Qed.

End PyFacts.

(** ** The chunker *)

Module ChunkerFacts.
Import Py Spec PyFacts DocumentParser.

Lemma Forall_firstn {A} (P : A -> Prop) (n : nat) (l : list A) :
  Forall P l -> Forall P (firstn n l).
Proof.
  intros F; revert n; induction F; intros [|n]; simpl; auto.
Qed.

Lemma Forall_skipn {A} (P : A -> Prop) (n : nat) (l : list A) :
  Forall P l -> Forall P (skipn n l).
Proof.
  intros F; revert n; induction F; intros [|n]; simpl; auto.
Qed.

Lemma slice_Forall {A} (P : A -> Prop) (l : list A) (i j : Z) :
  Forall P l -> Forall P (slice l i j).
Proof.
  intros F; unfold slice; now apply Forall_firstn, Forall_skipn.
Qed.

Lemma slice_nonempty {A} (l : list A) (i cs : Z) :
  0 <= i < len l -> 0 < cs -> slice l i (i + cs) <> [].
Proof.
  unfold slice, clamp, len; intros Hi Hcs E.
  apply (f_equal (@List.length A)) in E.
  rewrite length_firstn, length_skipn in E; simpl in E.
  destruct (Z.ltb_spec i 0); [lia|].
  destruct (Z.ltb_spec (i + cs) 0); lia.
Qed.

Lemma ceil_div_range (stop step : Z) :
  0 < step -> (stop + step - 1) / step = ceil_div stop step.
Proof.
  intros Hs; unfold ceil_div.
  symmetry; apply Z.div_unique with (r := step - 1 - (- stop) mod step).
  - left; pose proof (Z.mod_pos_bound (- stop) step Hs); lia.
  - pose proof (Z.div_mod (- stop) step); lia.
Qed.

Lemma range0_forward (stop step : Z) :
  0 < step -> 0 <= stop ->
  exists r, range0 stop step = Ok r
            /\ len r = ceil_div stop step
            /\ (forall i, In i r -> 0 <= i < stop).
Proof.
  intros Hs Hn; unfold range0, range_len.
  destruct (Z.eqb_spec step 0); [lia|].
  destruct (Z.ltb_spec 0 step); [|lia].
  rewrite ceil_div_range by assumption.
  assert (Hq : 0 <= ceil_div stop step).
  { rewrite <- ceil_div_range by assumption.
    apply Z.div_pos; lia. }
  eexists; split; [reflexivity|]; split.
  - unfold len; rewrite length_map, length_seq; lia.
  - intros i Hin; apply in_map_iff in Hin as (k & <- & Hk).
    apply in_seq in Hk; rewrite Z.max_r in Hk by assumption.
    assert (Hk' : Z.of_nat k + 1 <= ceil_div stop step) by lia.
    rewrite <- ceil_div_range in Hk' by assumption.
    pose proof (Z.mul_div_le (stop + step - 1) step Hs).
    nia.
Qed.

Lemma range0_backward (stop step : Z) :
  step < 0 -> 0 <= stop -> range0 stop step = Ok [].
Proof.
  intros Hs Hn; unfold range0, range_len.
  destruct (Z.eqb_spec step 0); [lia|].
  destruct (Z.ltb_spec 0 step); [lia|].
  assert (Hq : (- stop - step - 1) / - step <= 0).
  { assert ((- stop - step - 1) / - step < 1); [|lia].
    apply Z.div_lt_upper_bound; lia. }
  now rewrite Z.max_l by assumption.
Qed.

(** With a positive window every turn of the loop appends its window. *)
Lemma loop_appends (words : list string) (cs : Z) (r : list Z)
    (acc : list string) :
  Forall is_word words -> 0 < cs ->
  (forall i, In i r -> 0 <= i < len words) ->
  fold_left
    (fun chunks i =>
       let chunk := join " " (slice words i (i + cs)) in
       if truthy (strip chunk) then chunks ++ [strip chunk] else chunks)
    r acc
  = acc ++ map (window words cs) r.
Proof.
  intros F Hcs; revert acc.
  induction r as [|i r IH]; intros acc Hr; simpl.
  - now rewrite app_nil_r.
  - destruct (strip_join_words (slice words i (i + cs))) as [Hs Ht].
    + now apply slice_Forall.
    + apply slice_nonempty; auto. apply Hr; now left.
    + rewrite Hs, Ht, IH by (intros; apply Hr; now right).
      unfold window; now rewrite <- app_assoc.
Qed.

Lemma create_chunks_blank (content : string) (cs ov : Z) :
  blank content = true -> _create_chunks content cs ov = Ok [].
Proof.
  intros B; unfold _create_chunks.
  apply strip_blank in B; now rewrite B.
Qed.

(** The chunks are the windows at the multiples of the stride. *)
Lemma create_chunks_windows (content : string) (cs ov : Z) :
  0 < cs -> ov < cs -> blank content = false ->
  exists r,
    range0 (len (split content)) (cs - ov) = Ok r
    /\ _create_chunks content cs ov
       = Ok (map (window (split content) cs) r).
Proof.
  intros Hcs Hov B; unfold _create_chunks.
  destruct (truthy (strip content)) eqn:T.
  2:{ apply strip_blank in T; congruence. }
  destruct (range0_forward (len (split content)) (cs - ov))
    as (r & Hr & _ & Hin); [lia | unfold len; lia |].
  exists r; split; auto.
  simpl; rewrite Hr; simpl.
  now rewrite loop_appends by auto using split_words.
Qed.

(** C1, as the code has it.  For a chunk size of at least one token and
    an overlap below it, the call returns, without error, exactly
    [ceil(N / (chunkSize - overlap))] chunks for a text of [N > 0]
    tokens (one window per multiple of the stride below [N]), and no
    chunk for a text that is empty or white space only. *)
Theorem create_chunks_count (content : string) (chunk_size overlap : Z) :
  0 < chunk_size -> overlap < chunk_size ->
  exists chunks,
    _create_chunks content chunk_size overlap = Ok chunks
    /\ (blank content = true -> chunks = [])
    /\ (0 < len (split content) ->
        len chunks
        = ceil_div (len (split content)) (chunk_size - overlap)).
Proof.
  intros Hcs Hov.
  destruct (blank content) eqn:B.
  - exists []; split; [now apply create_chunks_blank|].
    split; auto.
    apply split_blank in B; rewrite B; unfold len; simpl; lia.
  - destruct (create_chunks_windows content chunk_size overlap Hcs Hov B)
      as (r & Hr & Hc).
    eexists; split; [exact Hc|]; split; [discriminate|].
    intros _.
    destruct (range0_forward (len (split content)) (chunk_size - overlap))
      as (r' & Hr' & Hlen & _); [lia | unfold len; lia |].
    rewrite Hr in Hr'; injection Hr' as <-.
    rewrite <- Hlen; unfold len; now rewrite length_map.
Qed.

Lemma create_chunks_count_witness :
  exists chunks,
    _create_chunks "one two  three four five" 3 1 = Ok chunks
    /\ (blank "one two  three four five" = true -> chunks = [])
    /\ (0 < len (split "one two  three four five") ->
        len chunks
        = ceil_div (len (split "one two  three four five")) (3 - 1)).
Proof.
  apply (create_chunks_count "one two  three four five" 3 1); lia.
Defined.

(** C1 as the specification words it fails: four tokens with a chunk size
    of 5 and an overlap of 2 give the windows at 0 and 3, two chunks,
    where the formula [ceil(max(N - overlap, 1) / (chunkSize - overlap))]
    gives one. *)
Lemma chunk_count_formula_fails :
  len (split "a b c d") = 4
  /\ 2 < 5
  /\ _create_chunks "a b c d" 5 2 = Ok ["a b c d"; "d"]
  /\ chunk_count_formula 4 5 2 = 1
  /\ len ["a b c d"; "d"] <> chunk_count_formula (len (split "a b c d")) 5 2.
Proof.
  repeat split; try reflexivity; try lia.
  vm_compute; discriminate.
Qed.

(** The same with the sizes the parsers use: 460 tokens give the windows
    at 0 and 450, the second one inside the first. *)
Example default_sizes_460_tokens :
  exists chunks,
    _create_chunks (Example.tokens 460) 500 50 = Ok chunks
    /\ len (split (Example.tokens 460)) = 460
    /\ len chunks = 2
    /\ chunk_count_formula 460 500 50 = 1.
Proof.
  eexists; split; [vm_compute; reflexivity|].
  repeat split; vm_compute; reflexivity.
Qed.

(** The chunk size has to be positive for the count: with a size of 0 and
    an overlap of -1 every window is empty and no chunk is kept. *)
Example chunk_size_zero_keeps_nothing :
  _create_chunks "a b" 0 (-1) = Ok [] /\ len (split "a b") = 2.
Proof. split; reflexivity. Qed.

(** C4, as the code has it.  With [overlap >= chunkSize] the call never
    loops.  It raises only when the two are equal and the text has a
    token: the [ValueError] of the zero step of [range].  With a larger
    overlap the range is empty, and with a blank text the loop is not
    reached: both return no chunk and no error. *)
Theorem create_chunks_overlap_ge_size (content : string)
    (chunk_size overlap : Z) :
  chunk_size <= overlap ->
  _create_chunks content chunk_size overlap
  = if blank content then Ok []
    else if overlap =? chunk_size
         then Raise (ValueError "range() arg 3 must not be zero")
         else Ok [].
Proof.
  intros Hle.
  destruct (blank content) eqn:B; [now apply create_chunks_blank|].
  unfold _create_chunks.
  destruct (truthy (strip content)) eqn:T.
  2:{ apply strip_blank in T; congruence. }
  simpl.
  destruct (Z.eqb_spec overlap chunk_size) as [->|Hne].
  - unfold range0; now rewrite Z.sub_diag.
  - rewrite range0_backward; [reflexivity | lia | unfold len; lia].
Qed.

Lemma create_chunks_overlap_ge_size_witness :
  _create_chunks "a b c" 2 2
  = if blank "a b c" then Ok []
    else if 2 =? 2
         then Raise (ValueError "range() arg 3 must not be zero")
         else Ok [].
Proof.
  apply (create_chunks_overlap_ge_size "a b c" 2 2); lia.
Defined.

(** C4 as the specification words it fails: an overlap of 5 with a chunk
    size of 2 is not rejected, the call returns an empty list; nor is
    any configuration rejected on a blank text. *)
Lemma overlap_above_size_not_rejected :
  2 <= 5
  /\ _create_chunks "a b c" 2 5 = Ok []
  /\ ~ raises (_create_chunks "a b c" 2 5)
  /\ ~ raises (_create_chunks "   " 2 2).
Proof.
  repeat split; try reflexivity; try lia.
  - intros [e H]; vm_compute in H; discriminate.
  - intros [e H]; vm_compute in H; discriminate.
Qed.

End ChunkerFacts.

(** ** The message bus *)

Module BusFacts.
Import Py MCPProtocol BusRun.

Section Generic.
Context {P : Type}.
Implicit Types (mcp : MCPProtocol.t P) (m : MCPMessage P).
Implicit Types (queue pre post : list (MCPMessage P)).

Lemma scan_none agent i queue :
  Forall (not_for agent) queue -> scan agent i queue = None.
Proof.
  intros F; revert i; induction F as [|m queue Hm _ IH]; intros i; simpl; auto.
  apply String.eqb_neq in Hm; now rewrite Hm.
Qed.

Lemma scan_first agent i pre m post :
  Forall (not_for agent) pre -> MCPProtocol.receiver m = agent ->
  scan agent i (pre ++ m :: post) = Some (i + List.length pre)%nat.
Proof.
  intros F Hm; revert i; induction F as [|x pre Hx _ IH]; intros i; simpl.
  - apply String.eqb_eq in Hm; rewrite Hm; f_equal; lia.
  - apply String.eqb_neq in Hx; rewrite Hx, IH; f_equal; lia.
Qed.

Lemma pop_middle {A} (pre post : list A) (a : A) :
  pop (pre ++ a :: post) (List.length pre) = Some (a, pre ++ post).
Proof.
  induction pre as [|x pre IH]; simpl; auto.
  now rewrite IH.
Qed.

(** A queue either holds nothing for [agent] or splits at its earliest
    envelope for [agent]. *)
Lemma queue_cases agent queue :
  Forall (not_for agent) queue
  \/ exists pre m post,
       queue = pre ++ m :: post
       /\ Forall (not_for agent) pre
       /\ MCPProtocol.receiver m = agent.
Proof.
  induction queue as [|x queue IH]; [left; constructor|].
  destruct (String.eqb_spec (MCPProtocol.receiver x) agent) as [E|N].
  - right; exists [], x, queue; repeat split; auto.
  - destruct IH as [F | (pre & m & post & -> & F & Hm)].
    + left; now constructor.
    + right; exists (x :: pre), m, post; repeat split; auto.
Qed.

Lemma receive_none mcp agent :
  Forall (not_for agent) (message_queue mcp) ->
  receive_message mcp agent = (None, mcp).
Proof.
  intros F; unfold receive_message; now rewrite scan_none.
Qed.

Lemma receive_first mcp agent pre m post :
  message_queue mcp = pre ++ m :: post ->
  Forall (not_for agent) pre -> MCPProtocol.receiver m = agent ->
  receive_message mcp agent = (Some m, with_queue mcp (pre ++ post)).
Proof.
  intros Hq F Hm; unfold receive_message.
  rewrite Hq, scan_first by assumption; simpl.
  now rewrite pop_middle.
Qed.

Lemma inbox_none agent queue :
  Forall (not_for agent) queue -> inbox agent queue = [].
Proof.
  induction 1 as [|x queue Hx _ IH]; simpl; auto.
  apply String.eqb_neq in Hx; now rewrite Hx.
Qed.

Lemma inbox_first agent pre m post :
  Forall (not_for agent) pre -> MCPProtocol.receiver m = agent ->
  inbox agent (pre ++ m :: post) = m :: inbox agent (pre ++ post).
Proof.
  intros F Hm; unfold inbox; rewrite !filter_app; simpl.
  apply String.eqb_eq in Hm; rewrite Hm.
  now rewrite (inbox_none agent pre F : filter _ pre = []).
Qed.

Lemma firstn_repeat {A} (x : A) (n k : nat) :
  (n <= k)%nat -> firstn n (repeat x k) = repeat x n.
Proof.
  revert k; induction n as [|n IH]; intros [|k] H; simpl; auto; try lia.
  f_equal; apply IH; lia.
Qed.

(** Only the first [n] slots of a padded list matter. *)
Lemma firstn_padding {A} (x : A) (l : list A) (n k k' : nat) :
  (n <= List.length l + k)%nat -> (n <= List.length l + k')%nat ->
  firstn n (l ++ repeat x k) = firstn n (l ++ repeat x k').
Proof.
  revert n; induction l as [|a l IH]; intros n Hk Hk'; simpl in *.
  - now rewrite !firstn_repeat.
  - destruct n as [|n]; simpl; auto.
    f_equal; apply IH; lia.
Qed.

(** Successive receives hand out the inbox in queue order, then nothing. *)
Lemma receive_n_inbox mcp agent n :
  fst (receive_n mcp agent n)
  = firstn n (map Some (inbox agent (message_queue mcp)) ++ repeat None n).
Proof.
  revert mcp; induction n as [|n IH]; intros mcp; [reflexivity|].
  cbn [receive_n].
  destruct (queue_cases agent (message_queue mcp))
    as [F | (pre & m & post & Hq & F & Hm)].
  - rewrite (receive_none mcp agent F).
    specialize (IH mcp).
    destruct (receive_n mcp agent n) as [rs mcp'] eqn:E; simpl in *.
    rewrite IH, (inbox_none agent _ F); reflexivity.
  - rewrite (receive_first mcp agent pre m post Hq F Hm).
    specialize (IH (with_queue mcp (pre ++ post))).
    destruct (receive_n (with_queue mcp (pre ++ post)) agent n)
      as [rs mcp'] eqn:E; simpl in *.
    rewrite IH, Hq, (inbox_first agent pre m post F Hm); simpl.
    f_equal; apply (firstn_padding None _ n n (S n)); lia.
Qed.

Lemma send_queue w mcp (a : SendArgs P) :
  exists m,
    message_queue (send w mcp a) = message_queue mcp ++ [m]
    /\ message_history (send w mcp a) = message_history mcp ++ [m]
    /\ call_of m = call_of_args a.
Proof.
  unfold send, send_message, generate_trace_id.
  destruct (BusRun.trace_id a) as [s|]; [destruct (truthy s)|];
    simpl; eexists; repeat split.
Qed.

Lemma send_all_queue w mcp (sends : list (SendArgs P)) :
  exists sent,
    message_queue (send_all w mcp sends) = message_queue mcp ++ sent
    /\ map call_of sent = map call_of_args sends.
Proof.
  revert mcp; induction sends as [|a sends IH]; intros mcp.
  - exists []; simpl; now rewrite app_nil_r.
  - destruct (send_queue w mcp a) as (m & Hq & _ & Hc).
    destruct (IH (send w mcp a)) as (sent & Hs & Hcs).
    exists (m :: sent); unfold send_all in *; simpl; split.
    + rewrite Hs, Hq, <- app_assoc; reflexivity.
    + now rewrite Hc, Hcs.
Qed.

(** C5.  After any sequence of [send_message] calls the live queue is the
    queue of before followed by one envelope per call, in call order and
    carrying the sender, receiver, type and payload of its call; [n]
    successive [receive_message] calls for one receiver then return the
    envelopes addressed to it in that order, whoever sent them, and [None]
    (no error) once none is left. *)
Theorem receive_in_send_order (w : World.t) (mcp0 : MCPProtocol.t P)
    (sends : list (SendArgs P)) (agent : string) (n : nat) :
  exists sent,
    message_queue (send_all w mcp0 sends) = message_queue mcp0 ++ sent
    /\ map call_of sent = map call_of_args sends
    /\ fst (receive_n (send_all w mcp0 sends) agent n)
       = firstn n (map Some (inbox agent (message_queue mcp0 ++ sent))
                     ++ repeat None n).
Proof.
  destruct (send_all_queue w mcp0 sends) as (sent & Hq & Hc).
  exists sent; repeat split; auto.
  now rewrite receive_n_inbox, Hq.
Qed.

End Generic.

(** C10.  [receive_message] on a queue that holds nothing for the agent
    returns [None] and leaves the bus as it is.  On a queue whose earliest
    envelope for the agent is [m], it returns [m], whatever the type of
    [m], and leaves the other envelopes in their order; the history is not
    touched.  The two consumers that expect one type drop an envelope of
    another type this way: they report that nothing came and the envelope
    is gone from the queue. *)
Theorem receive_message_frame (w : World.t) (mcp : Bus) (agent : string) :
  (Forall (not_for agent) (message_queue mcp) ->
   receive_message mcp agent = (None, mcp))
  /\ (forall pre m post,
        message_queue mcp = pre ++ m :: post ->
        Forall (not_for agent) pre ->
        MCPProtocol.receiver m = agent ->
        receive_message mcp agent = (Some m, with_queue mcp (pre ++ post))
        /\ message_history (with_queue mcp (pre ++ post))
           = message_history mcp
        /\ (agent = RetrievalAgent.name ->
            MCPProtocol.type m <> "INGESTION_COMPLETE" ->
            forall self trace,
              RetrievalAgent.process_ingestion_message w self mcp trace
              = (Ok false, self, with_queue mcp (pre ++ post)))
        /\ (agent = LLMResponseAgent.name ->
            MCPProtocol.type m <> "CONTEXT_RESPONSE" ->
            forall query trace,
              LLMResponseAgent.generate_response w mcp query trace
              = (Ok LLMResponseAgent.no_context,
                 with_queue mcp (pre ++ post)))).
Proof.
  split; [apply receive_none|].
  intros pre m post Hq F Hm.
  pose proof (receive_first mcp agent pre m post Hq F Hm) as R.
  repeat split; auto.
  - intros -> Ht self trace.
    unfold RetrievalAgent.process_ingestion_message; rewrite R.
    apply String.eqb_neq in Ht; now rewrite Ht.
  - intros -> Ht query trace.
    unfold LLMResponseAgent.generate_response; rewrite R.
    apply String.eqb_neq in Ht; now rewrite Ht.
Qed.

Lemma receive_message_frame_witness :
  receive_message (Example.bus_of []) "RetrievalAgent"
  = (None, Example.bus_of [])
  /\ receive_message
       (Example.bus_of [Example.to_llm; Example.stray; Example.ingested])
       "RetrievalAgent"
     = (Some Example.stray,
        Example.bus_of [Example.to_llm; Example.ingested])
  /\ RetrievalAgent.process_ingestion_message Example.world
       RetrievalAgent.init
       (Example.bus_of [Example.to_llm; Example.stray; Example.ingested])
       "00000000"
     = (Ok false, RetrievalAgent.init,
        Example.bus_of [Example.to_llm; Example.ingested])
  /\ LLMResponseAgent.generate_response Example.world
       (Example.bus_of [Example.stray;
                        Example.envelope "x" "LLMResponseAgent" "PING"
                                         (Payload.ContextResponse [] "q" 0);
                        Example.to_llm])
       "q" "00000000"
     = (Ok LLMResponseAgent.no_context,
        Example.bus_of [Example.stray; Example.to_llm]).
Proof.
  pose proof (receive_message_frame Example.world (Example.bus_of [])
                "RetrievalAgent") as [H0 _].
  pose proof (receive_message_frame Example.world
                (Example.bus_of
                   [Example.to_llm; Example.stray; Example.ingested])
                "RetrievalAgent") as [_ H1].
  pose proof (receive_message_frame Example.world
                (Example.bus_of
                   [Example.stray;
                    Example.envelope "x" "LLMResponseAgent" "PING"
                                     (Payload.ContextResponse [] "q" 0);
                    Example.to_llm])
                "LLMResponseAgent") as [_ H2].
  specialize (H0 (Forall_nil _)).
  destruct (H1 [Example.to_llm] Example.stray [Example.ingested])
    as (R1 & _ & C1 & _).
  { reflexivity. }
  { constructor; [discriminate | constructor]. }
  { reflexivity. }
  destruct (H2 [Example.stray]
               (Example.envelope "x" "LLMResponseAgent" "PING"
                                 (Payload.ContextResponse [] "q" 0))
               [Example.to_llm])
    as (_ & _ & _ & C2).
  { reflexivity. }
  { constructor; [discriminate | constructor]. }
  { reflexivity. }
  refine (conj H0 (conj R1 (conj _ _))).
  - apply C1; [reflexivity | discriminate].
  - apply C2; [reflexivity | discriminate].
Defined.

End BusFacts.

(** ** The vector store *)

Module StoreFacts.
Import Py StoreRun.

Lemma len_app {A} (l l' : list A) : len (l ++ l') = len l + len l'.
Proof. unfold len; rewrite length_app; lia. Qed.

Lemma len_map {A B} (f : A -> B) (l : list A) : len (map f l) = len l.
Proof. unfold len; now rewrite length_map. Qed.

(** The inner loop of [add_documents] appends one entry per chunk. *)
Lemma gather_chunks (doc : DocumentParser.Document) (l : list (Z * string))
    (a : list string) (b : list ChunkMetadata.t) :
  fold_left
    (fun '(all_chunks, all_metadata) '(i, chunk) =>
       let chunk_metadata :=
         {| ChunkMetadata.filename := DocumentParser.filename doc;
            ChunkMetadata.chunk_id := i;
            ChunkMetadata.doc_metadata := DocumentParser.metadata doc;
            ChunkMetadata.chunk_text := VectorStore.preview chunk |} in
       (all_chunks ++ [chunk], all_metadata ++ [chunk_metadata]))
    l (a, b)
  = (a ++ map fst (entries_of doc l), b ++ map snd (entries_of doc l)).
Proof.
  revert a b; induction l as [|[i chunk] l IH]; intros a b; simpl.
  - now rewrite !app_nil_r.
  - rewrite IH, <- !app_assoc; reflexivity.
Qed.

Lemma gather_from (documents : list DocumentParser.Document)
    (a : list string) (b : list ChunkMetadata.t) :
  fold_left
    (fun acc doc =>
       fold_left
         (fun '(all_chunks, all_metadata) '(i, chunk) =>
            let chunk_metadata :=
              {| ChunkMetadata.filename := DocumentParser.filename doc;
                 ChunkMetadata.chunk_id := i;
                 ChunkMetadata.doc_metadata := DocumentParser.metadata doc;
                 ChunkMetadata.chunk_text := VectorStore.preview chunk |} in
            (all_chunks ++ [chunk], all_metadata ++ [chunk_metadata]))
         (enumerate (DocumentParser.chunks doc)) acc)
    documents (a, b)
  = (a ++ map fst (entries documents), b ++ map snd (entries documents)).
Proof.
  revert a b; induction documents as [|doc documents IH]; intros a b; simpl.
  - now rewrite !app_nil_r.
  - rewrite gather_chunks, IH.
    unfold entries; simpl; fold (entries documents).
    rewrite !map_app, !app_assoc; reflexivity.
Qed.

(** [gather] computes the entries of the batch. *)
Lemma gather_entries (documents : list DocumentParser.Document) :
  VectorStore.gather documents
  = (map fst (entries documents), map snd (entries documents)).
Proof. unfold VectorStore.gather; now rewrite gather_from. Qed.

Lemma faiss_add_ntotal (idx idx' : Faiss.IndexFlatIP) (x : list (list Z)) :
  Faiss.add idx x = Ok idx' ->
  Faiss.ntotal idx' = Faiss.ntotal idx + len x /\ Faiss.d idx' = Faiss.d idx.
Proof.
  unfold Faiss.add, Faiss.ntotal.
  destruct (Faiss.has_dim (Faiss.d idx) x); [|discriminate].
  intros H; injection H as <-; simpl; split; auto using len_app.
Qed.

(** A successful [add_documents] appends the entries of the batch to the
    three stores. *)
Lemma add_documents_appends (w : World.t) (store store' : VectorStore.t)
    (documents : list DocumentParser.Document) :
  one_row_per_text w ->
  VectorStore.add_documents w store documents = Ok store' ->
  VectorStore.chunks store'
  = VectorStore.chunks store ++ map fst (entries documents)
  /\ VectorStore.metadata store'
     = VectorStore.metadata store ++ map snd (entries documents)
  /\ Faiss.ntotal (VectorStore.index store')
     = Faiss.ntotal (VectorStore.index store) + len (entries documents)
  /\ VectorStore.dimension store' = VectorStore.dimension store
  /\ Faiss.d (VectorStore.index store') = Faiss.d (VectorStore.index store).
Proof.
  intros Hw; unfold VectorStore.add_documents.
  rewrite gather_entries.
  destruct (map fst (entries documents)) as [|c cs] eqn:E.
  - intros H; injection H as <-.
    apply map_eq_nil in E; rewrite E; simpl.
    rewrite !app_nil_r; repeat split; unfold len; simpl; lia.
  - rewrite <- E.
    destruct (World.encode w (map fst (entries documents))) as [rows|e] eqn:En;
      [simpl|discriminate].
    destruct (Faiss.add (VectorStore.index store) rows) as [idx|e] eqn:Ea;
      [simpl|discriminate].
    intros H; injection H as <-; simpl.
    destruct (faiss_add_ntotal _ _ _ Ea) as [Hn Hd].
    repeat split; auto.
    rewrite Hn; f_equal.
    unfold len; rewrite (Hw _ _ En), length_map; reflexivity.
Qed.

Lemma step_consistent (w : World.t) state (o : op) :
  one_row_per_text w -> consistent state -> consistent (step w state o).
Proof.
  intros Hw; destruct state as [store log]; intros (Ha & Hc & Hm).
  destruct o as [documents|query top_k|]; simpl in *; auto.
  - destruct (VectorStore.add_documents w store documents) as [store'|e] eqn:E.
    2:{ repeat split; auto; apply Ha. }
    destruct (add_documents_appends w store store' documents Hw E)
      as (Hc' & Hm' & Hn' & _).
    destruct Ha as [Ha1 Ha2].
    unfold consistent, aligned; simpl.
    rewrite Hc', Hm', Hn', Hc, Hm, !map_app, !len_app, !len_map in *.
    repeat split; auto; lia.
  - repeat split; auto; apply Ha.
  - repeat split.
Qed.

Lemma run_from_consistent (w : World.t) (ops : list op) state :
  one_row_per_text w -> consistent state ->
  consistent (fold_left (step w) ops state).
Proof.
  intros Hw; revert state; induction ops as [|o ops IH]; intros state Hs;
    simpl; auto.
  apply IH; now apply step_consistent.
Qed.

(** C6.  After every sequence of [add_documents], [search] and [clear]
    calls on a new store, the index has as many rows as the chunk list and
    the metadata list have entries, and position by position the two lists
    hold the chunks inserted since the last [clear], in insertion order,
    and the metadata entry made for each of them.  The embedding function
    is taken to return one vector per text. *)
Theorem store_stays_aligned (w : World.t) (ops : list op) :
  one_row_per_text w ->
  Faiss.ntotal (VectorStore.index (fst (run w ops)))
  = len (VectorStore.chunks (fst (run w ops)))
  /\ len (VectorStore.chunks (fst (run w ops)))
     = len (VectorStore.metadata (fst (run w ops)))
  /\ combine (VectorStore.chunks (fst (run w ops)))
             (VectorStore.metadata (fst (run w ops)))
     = snd (run w ops).
Proof.
  intros Hw.
  destruct (run_from_consistent w ops (VectorStore.init, []) Hw)
    as ((H1 & H2) & Hc & Hm).
  { repeat split. }
  fold (run w ops) in *.
  repeat split; auto.
  rewrite Hc, Hm; clear.
  induction (snd (run w ops)) as [|[c m] l IH]; simpl; congruence.
Qed.

Lemma example_one_row_per_text : one_row_per_text Example.world.
Proof.
  intros texts rows H; injection H as <-; apply length_map.
Qed.

Lemma store_stays_aligned_witness :
  Faiss.ntotal (VectorStore.index (fst (run Example.world Example.calls)))
  = len (VectorStore.chunks (fst (run Example.world Example.calls)))
  /\ len (VectorStore.chunks (fst (run Example.world Example.calls)))
     = len (VectorStore.metadata (fst (run Example.world Example.calls)))
  /\ combine (VectorStore.chunks (fst (run Example.world Example.calls)))
             (VectorStore.metadata (fst (run Example.world Example.calls)))
     = snd (run Example.world Example.calls).
Proof.
  apply (store_stays_aligned Example.world Example.calls).
  intros texts rows H; injection H as <-; apply length_map.
Defined.

(** *** Search *)

(** On an empty index [search] returns the empty list, whatever the query,
    the number of results asked for and the state of the collaborators. *)
Lemma search_empty_index (w : World.t) (store : VectorStore.t)
    (query : string) (top_k : Z) :
  Faiss.ntotal (VectorStore.index store) = 0 ->
  VectorStore.search w store query top_k = Ok [].
Proof.
  intros H; unfold VectorStore.search; now rewrite H.
Qed.

Lemma insert_ranked_in (x y : Z * Z) (l : list (Z * Z)) :
  In y (Faiss.insert_ranked x l) <-> y = x \/ In y l.
Proof.
  induction l as [|z l IH]; simpl.
  - intuition congruence.
  - destruct (fst z <? fst x); simpl; rewrite ?IH; intuition congruence.
Qed.


Lemma ranked_from_in (y : Z * Z) (l acc : list (Z * Z)) :
  In y (fold_left (fun acc x => Faiss.insert_ranked x acc) l acc)
  <-> In y l \/ In y acc.
Proof.
  revert acc; induction l as [|x l IH]; intros acc; simpl.
  - tauto.
  - rewrite IH, insert_ranked_in; intuition congruence.
Qed.


Lemma ranked_in (y : Z * Z) (l : list (Z * Z)) :
  In y (Faiss.ranked l) <-> In y l.
Proof. unfold Faiss.ranked; rewrite ranked_from_in; simpl; tauto. Qed.


Lemma enumerate_in {A} (l : list A) (i : Z) (a : A) :
  In (i, a) (enumerate l) -> 0 <= i < len l.
Proof.
  unfold enumerate, len; intros H; apply in_combine_l in H.
  apply in_map_iff in H as (k & <- & Hk); apply in_seq in Hk; lia.
Qed.

Lemma enumerate_length {A} (l : list A) :
  List.length (enumerate l) = List.length l.
Proof.
  unfold enumerate.
  rewrite length_combine, length_map, length_seq; lia.
Qed.

Lemma firstn_In {A} (n : nat) (l : list A) (x : A) :
  In x (firstn n l) -> In x l.
Proof.
  revert l; induction n as [|n IH]; intros [|a l]; simpl; try tauto.
  intros [H|H]; auto.
Qed.

(** A row of results has [k] slots; every label is a row offset or [-1]. *)
Lemma search_row_slots (idx : Faiss.IndexFlatIP) (q : list Z) (k : Z) :
  List.length (Faiss.search_row idx q k) = Z.to_nat k
  /\ Forall (fun p => -1 <= snd p < Faiss.ntotal idx)
            (Faiss.search_row idx q k).
Proof.
  unfold Faiss.search_row; split.
  - rewrite length_app, repeat_length.
    pose proof (firstn_le_length (Z.to_nat k)
      (Faiss.ranked (map (fun '(i, row) => (Faiss.dot q row, i))
                         (enumerate (Faiss.xb idx))))).
    lia.
  - apply Forall_app; split.
    + apply Forall_forall; intros [s i] Hin.
      apply firstn_In, ranked_in, in_map_iff in Hin as ([j row] & E & Hj).
      injection E as _ <-; apply enumerate_in in Hj.
      unfold Faiss.ntotal; simpl; lia.
    + apply Forall_forall; intros p Hin; apply repeat_spec in Hin; subst.
      unfold Faiss.ntotal, len; simpl; lia.
Qed.

Lemma index_in_range {A} (l : list A) (i : Z) :
  - len l <= i < len l -> exists a, Py.index l i = Ok a.
Proof.
  unfold Py.index, len; intros H.
  set (j := if i <? 0 then i + Z.of_nat (List.length l) else i).
  assert (Hj : 0 <= j < Z.of_nat (List.length l)).
  { subst j; destruct (Z.ltb_spec i 0); lia. }
  destruct (Z.ltb_spec j 0); [lia|].
  destruct (nth_error l (Z.to_nat j)) as [a|] eqn:E; [eauto|].
  apply nth_error_None in E; lia.
Qed.

(** The loop of [search] keeps every slot whose label is below the number
    of chunks: the row offsets and [-1] alike. *)
Lemma collect_keeps_slots (store : VectorStore.t) (pairs : list (Z * Z))
    (results : list SearchResult.t) :
  len (VectorStore.chunks store) = len (VectorStore.metadata store) ->
  0 < len (VectorStore.chunks store) ->
  Forall (fun p => -1 <= snd p < len (VectorStore.chunks store)) pairs ->
  exists rs,
    VectorStore.collect store pairs results = Ok (results ++ rs)
    /\ List.length rs = List.length pairs
    /\ map SearchResult.score rs = map fst pairs.
Proof.
  intros Hm Hn F; revert results.
  induction F as [|[s i] pairs Hi _ IH]; intros results; simpl in *.
  - exists []; now rewrite app_nil_r.
  - destruct (Z.ltb_spec i (len (VectorStore.chunks store))); [|lia].
    destruct (index_in_range (VectorStore.chunks store) i) as [c Hc]; [lia|].
    destruct (index_in_range (VectorStore.metadata store) i) as [m Hx]; [lia|].
    rewrite Hc, Hx; simpl.
    destruct (IH (results ++
                    [{| SearchResult.chunk := c;
                        SearchResult.metadata := m;
                        SearchResult.score := s |}])) as (rs & E & Hl & Hs).
    exists ({| SearchResult.chunk := c;
               SearchResult.metadata := m;
               SearchResult.score := s |} :: rs).
    rewrite E, <- app_assoc; simpl; rewrite Hl, Hs; auto.
Qed.

Lemma combine_fst_snd {A B} (l : list (A * B)) :
  combine (map fst l) (map snd l) = l.
Proof. induction l as [|[a b] l IH]; simpl; congruence. Qed.

(** What [search] does on a store that holds chunks: it returns one result
    per slot asked for, [top_k] of them, also when the store holds fewer
    chunks. *)
Lemma search_fills_every_slot (w : World.t) (store : VectorStore.t)
    (query : string) (top_k : Z) (q : list Z) :
  aligned store ->
  0 < len (VectorStore.chunks store) ->
  World.encode w [query] = Ok [q] ->
  len q = Faiss.d (VectorStore.index store) ->
  0 < top_k ->
  exists results,
    VectorStore.search w store query top_k = Ok results
    /\ len results = top_k.
Proof.
  intros [Ha Hb] Hn Hq Hd Hk; unfold VectorStore.search.
  destruct (Z.eqb_spec (Faiss.ntotal (VectorStore.index store)) 0); [lia|].
  rewrite Hq; simpl; unfold Faiss.search; simpl.
  apply Z.eqb_eq in Hd; rewrite Hd; simpl.
  destruct (Z.ltb_spec 0 top_k); [simpl | lia].
  rewrite combine_fst_snd.
  destruct (search_row_slots (VectorStore.index store) q top_k) as [Hl F].
  rewrite Ha in F.
  destruct (collect_keeps_slots store _ [] Hb Hn F) as (rs & E & Hrs & _).
  exists rs; split; [exact E|].
  unfold len; rewrite Hrs, Hl; lia.
Qed.

(** *** The ranking of the index model *)










(** C2 at a store of two chunks asked for five results.  The index fills
    the three slots it has no row for with the label [-1]; the test
    [idx < len(self.chunks)] lets [-1] through and [self.chunks[-1]] is
    the last chunk, so the call returns five results, three of them the
    last chunk again, where the claim has exactly the two stored
    entries. *)
Theorem search_beyond_size_repeats_last_chunk :
  Faiss.ntotal (VectorStore.index (Example.store_of [Example.notes])) = 2
  /\ exists results,
       VectorStore.search Example.world (Example.store_of [Example.notes])
                          "beta" 5 = Ok results
       /\ map SearchResult.chunk results
          = ["alpha beta"; "gamma"; "gamma"; "gamma"; "gamma"]
       /\ len results = 5.
Proof.
  split; [reflexivity|].
  eexists; split; [vm_compute; reflexivity|].
  split; reflexivity.
Qed.

(** C3 at the same store and request.  The scores come in descending
    order, but the result is longer than [min(k, index size)]: five
    results for an index of two rows. *)
Theorem search_result_longer_than_index :
  exists results,
    VectorStore.search Example.world (Example.store_of [Example.notes])
                       "beta" 5 = Ok results
    /\ map SearchResult.score results
       = [40; 20; - Faiss.FLT_MAX; - Faiss.FLT_MAX; - Faiss.FLT_MAX]
    /\ Z.min 5 (Faiss.ntotal
                  (VectorStore.index (Example.store_of [Example.notes]))) = 2
    /\ ~ len results
         <= Z.min 5 (Faiss.ntotal
                       (VectorStore.index (Example.store_of [Example.notes]))).
Proof.
  eexists; split; [vm_compute; reflexivity|].
  split; [reflexivity|]; split; [reflexivity|].
  vm_compute; intros H; apply H; reflexivity.
Qed.

End StoreFacts.

(** ** The document parser and the ingestion agent *)

Module IngestionFacts.
Import Py CoordRun DocumentParser.

(** With the sizes the parsers use the chunker does not raise. *)
Lemma create_chunks_default (content : string) :
  exists chunks, _create_chunks content 500 50 = Ok chunks.
Proof.
  destruct (ChunkerFacts.create_chunks_count content 500 50)
    as (chunks & H & _); try lia; eauto.
Qed.

(** The extensions left for the last branch of [parse_document]. *)
Lemma supported_rest_is_text (extension : string) :
  mem extension supported_formats = true ->
  String.eqb extension ".pdf" = false ->
  String.eqb extension ".pptx" = false ->
  String.eqb extension ".docx" = false ->
  String.eqb extension ".csv" = false ->
  mem extension [".txt"; ".md"] = true.
Proof.
  unfold mem, supported_formats; simpl.
  intros H H1 H2 H3 H4; now rewrite H1, H2, H3, H4 in H.
Qed.

(** A file whose extraction fails is recorded as an error document. *)
Lemma process_file_error (w : World.t) (file_path : string) (e : exn) :
  extraction_error w file_path = Some e ->
  error_record (IngestionAgent.process_file w file_path) e.
Proof.
  unfold extraction_error, IngestionAgent.process_file, parse_document.
  destruct (negb (mem (lower (World.suffix w file_path)) supported_formats)).
  { intros H; injection H as <-; repeat split; simpl.
    now exists "Error: ". }
  destruct (String.eqb _ ".pdf").
  { unfold _parse_pdf; destruct (World.pdf_pages w file_path);
      [discriminate|].
    intros H; injection H as <-; repeat split; simpl.
    now exists "Error parsing document: ". }
  destruct (String.eqb _ ".pptx").
  { unfold _parse_pptx; destruct (World.pptx_slides w file_path);
      [discriminate|].
    intros H; injection H as <-; repeat split; simpl.
    now exists "Error parsing document: ". }
  destruct (String.eqb _ ".docx").
  { unfold _parse_docx; destruct (World.docx_paragraphs w file_path);
      [discriminate|].
    intros H; injection H as <-; repeat split; simpl.
    now exists "Error parsing document: ". }
  destruct (String.eqb _ ".csv").
  { unfold _parse_csv; destruct (World.read_csv w file_path);
      [discriminate|].
    intros H; injection H as <-; repeat split; simpl.
    now exists "Error reading CSV: ". }
  unfold _parse_text; destruct (World.read_text w file_path);
    [discriminate|].
  intros H; injection H as <-; repeat split; simpl.
  now exists "Error parsing document: ".
Qed.

(** A file whose extraction works is recorded as parsed: its metadata are
    those of its format, not an error. *)
Lemma process_file_parsed (w : World.t) (file_path : string) :
  extraction_error w file_path = None ->
  forall msg,
    metadata (IngestionAgent.process_file w file_path) <> MetaError msg.
Proof.
  unfold extraction_error, IngestionAgent.process_file, parse_document.
  destruct (negb (mem (lower (World.suffix w file_path)) supported_formats));
    [discriminate|].
  destruct (String.eqb _ ".pdf").
  { unfold _parse_pdf; destruct (World.pdf_pages w file_path) as [pages|];
      [|discriminate]; simpl.
    match goal with
    | |- context [_create_chunks ?c 500 50] =>
        destruct (create_chunks_default c) as [chunks ->]
    end; simpl; discriminate. }
  destruct (String.eqb _ ".pptx").
  { unfold _parse_pptx; destruct (World.pptx_slides w file_path) as [slides|];
      [|discriminate]; simpl.
    match goal with
    | |- context [_create_chunks ?c 500 50] =>
        destruct (create_chunks_default c) as [chunks ->]
    end; simpl; discriminate. }
  destruct (String.eqb _ ".docx").
  { unfold _parse_docx;
      destruct (World.docx_paragraphs w file_path) as [paragraphs|];
      [|discriminate]; simpl.
    match goal with
    | |- context [_create_chunks ?c 500 50] =>
        destruct (create_chunks_default c) as [chunks ->]
    end; simpl; discriminate. }
  destruct (String.eqb _ ".csv").
  { unfold _parse_csv; destruct (World.read_csv w file_path) as [df|];
      [|discriminate]; simpl; discriminate. }
  unfold _parse_text; destruct (World.read_text w file_path) as [content|];
    [|discriminate]; simpl.
  destruct (create_chunks_default content) as [chunks ->]; simpl; discriminate.
Qed.

(** The loop of [process_documents] records one document per file, in the
    order of the files. *)
Lemma loop_records_every_file (w : World.t) (file_paths : list string)
    (docs : list Document) :
  fold_left (fun docs file_path =>
               docs ++ [IngestionAgent.process_file w file_path])
            file_paths docs
  = docs ++ map (IngestionAgent.process_file w) file_paths.
Proof.
  revert docs; induction file_paths as [|p ps IH]; intros docs; simpl.
  - now rewrite app_nil_r.
  - now rewrite IH, <- app_assoc.
Qed.

End IngestionFacts.

(** ** The agents on the bus *)

Module PipelineFacts.
Import Py BusRun MCPProtocol CoordRun BusFacts.

Lemma send_message_appends (w : World.t) (mcp : Bus)
    (s r t : string) (p : Payload.t) (tr : option string) :
  exists m,
    message_queue (snd (send_message w mcp s r t p tr))
    = message_queue mcp ++ [m]
    /\ MCPProtocol.receiver m = r
    /\ MCPProtocol.type m = t
    /\ MCPProtocol.payload m = p.
Proof.
  unfold send_message, generate_trace_id.
  destruct tr as [x|]; [destruct (truthy x)|]; simpl; eexists; repeat split.
Qed.

Lemma send_message_keeps (w : World.t) (mcp : Bus)
    (s r t : string) (p : Payload.t) (tr : option string) (agent : string) :
  r <> agent ->
  Forall (not_for agent) (message_queue mcp) ->
  Forall (not_for agent) (message_queue (snd (send_message w mcp s r t p tr))).
Proof.
  intros Hr F.
  destruct (send_message_appends w mcp s r t p tr) as (m & -> & Hm & _).
  apply Forall_app; split; auto.
  constructor; [|constructor]; unfold not_for; congruence.
Qed.

(** A receive leaves a part of the queue. *)
Lemma receive_message_keeps (Q : Message -> Prop) (mcp : Bus)
    (agent : string) :
  Forall Q (message_queue mcp) ->
  Forall Q (message_queue (snd (receive_message mcp agent))).
Proof.
  intros F.
  destruct (queue_cases agent (message_queue mcp))
    as [N | (pre & m & post & Hq & N & Hm)].
  - now rewrite (receive_none mcp agent N).
  - rewrite (receive_first mcp agent pre m post Hq N Hm); simpl.
    rewrite Hq in F; apply Forall_app in F as [F1 F2].
    inversion F2; subst; apply Forall_app; auto.
Qed.

Lemma build_context_from (w : World.t) (ctx : list ChunkInfo.t)
    (text : string) (sources : list Source.t) :
  snd (fold_left
         (fun '(context_text, sources) chunk =>
            ((context_text
                ++ "Document: " ++ ChunkInfo.filename chunk
                ++ LLMResponseAgent.nl
                ++ "Content: " ++ ChunkInfo.text chunk ++ LLMResponseAgent.nl
                ++ "Relevance Score: "
                ++ World.format_score w (ChunkInfo.score chunk)
                ++ LLMResponseAgent.nl ++ LLMResponseAgent.nl)%string,
             sources ++ [LLMResponseAgent.source_of chunk]))
         ctx (text, sources))
  = sources ++ map LLMResponseAgent.source_of ctx.
Proof.
  revert text sources; induction ctx as [|c ctx IH]; intros text sources;
    simpl.
  - now rewrite app_nil_r.
  - now rewrite IH, <- app_assoc.
Qed.

(** The cited sources are one per retrieved chunk, in the order of the
    context. *)
Lemma build_context_sources (w : World.t) (ctx : list ChunkInfo.t) :
  snd (LLMResponseAgent.build_context w ctx)
  = map LLMResponseAgent.source_of ctx.
Proof. unfold LLMResponseAgent.build_context; now rewrite build_context_from. Qed.

(** C9.  When the context envelope is the earliest one queued for the
    response agent and the generation call raises [e] on the prompt built
    from it, [generate_response] returns (it does not raise) a dictionary
    whose sources are the full list built from the retrieved chunks, whose
    answer is the apology followed by the message of [e] and whose error
    field is that message. *)
Theorem generation_failure_keeps_sources (w : World.t) (mcp : Bus)
    (pre post : list Message) (m : Message)
    (ctx : list ChunkInfo.t) (q : string) (n : Z)
    (query trace : string) (e : exn) :
  message_queue mcp = pre ++ m :: post ->
  Forall (not_for LLMResponseAgent.name) pre ->
  MCPProtocol.receiver m = LLMResponseAgent.name ->
  MCPProtocol.type m = "CONTEXT_RESPONSE" ->
  MCPProtocol.payload m = Payload.ContextResponse ctx q n ->
  World.generate w
    (LLMResponseAgent.prompt_of (fst (LLMResponseAgent.build_context w ctx))
                                query)
  = Raise e ->
  fst (LLMResponseAgent.generate_response w mcp query trace)
  = Ok {| Response.answer :=
            ("I apologize, but I encountered an error while generating the response: "
               ++ str_exn e)%string;
          Response.sources := map LLMResponseAgent.source_of ctx;
          Response.query := None;
          Response.context_used := None;
          Response.error := Some (str_exn e) |}.
Proof.
  intros Hq F Hm Ht Hp Hg.
  unfold LLMResponseAgent.generate_response.
  rewrite (receive_first mcp _ pre m post Hq F Hm), Ht, Hp; simpl.
  rewrite <- (build_context_sources w ctx).
  destruct (LLMResponseAgent.build_context w ctx) as [text sources].
  simpl in *; rewrite Hg.
  destruct (send_message w _ _ _ _ _ _); reflexivity.
Qed.

Lemma generation_failure_keeps_sources_witness :
  fst (LLMResponseAgent.generate_response Example.world_down
         (Example.bus_of [Example.stray; Example.context_response])
         "beta" "00000000")
  = Ok {| Response.answer :=
            ("I apologize, but I encountered an error while generating the response: "
               ++ str_exn (Exception "503 UNAVAILABLE"))%string;
          Response.sources :=
            map LLMResponseAgent.source_of Example.context;
          Response.query := None;
          Response.context_used := None;
          Response.error := Some (str_exn (Exception "503 UNAVAILABLE")) |}.
Proof.
  apply (generation_failure_keeps_sources Example.world_down
           (Example.bus_of [Example.stray; Example.context_response])
           [Example.stray] [] Example.context_response
           Example.context "beta" 2).
  - reflexivity.
  - constructor; [discriminate | constructor].
  - reflexivity.
  - reflexivity.
  - reflexivity.
  - reflexivity.
Defined.

(** *** The coordinator *)

Lemma process_documents_outcome (w : World.t) (self : CoordinatorAgent.t)
    (mcp : Bus) (file_paths : list string) :
  Forall (not_for RetrievalAgent.name) (message_queue mcp) ->
  exists self' mcp',
    Forall (not_for RetrievalAgent.name) (message_queue mcp')
    /\ match VectorStore.add_documents w
               (RetrievalAgent.vector_store
                  (CoordinatorAgent.retrieval_agent self))
               (map (IngestionAgent.process_file w) file_paths) with
       | Ok store =>
           CoordinatorAgent.process_documents w self mcp file_paths
           = (true, self', mcp')
           /\ CoordinatorAgent.documents_processed self' = true
       | Raise _ =>
           CoordinatorAgent.process_documents w self mcp file_paths
           = (false, self', mcp')
           /\ CoordinatorAgent.documents_processed self'
              = CoordinatorAgent.documents_processed self
       end.
Proof.
  intros F.
  unfold CoordinatorAgent.process_documents, generate_trace_id,
    IngestionAgent.process_documents.
  rewrite IngestionFacts.loop_records_every_file; simpl.
  match goal with
  | |- context [send_message w ?b ?s ?r ?t ?p ?tr] =>
      destruct (send_message_appends w b s r t p tr) as (m & Hq & Hm & Ht & Hp);
      destruct (send_message w b s r t p tr) as [tid mcp2]
  end.
  simpl in Hq.
  unfold RetrievalAgent.process_ingestion_message.
  rewrite (receive_first mcp2 RetrievalAgent.name (message_queue mcp) m []
             Hq F Hm).
  rewrite Ht, Hp; simpl; rewrite app_nil_r.
  destruct (VectorStore.add_documents w _ _) as [store|e].
  - match goal with
    | |- context [send_message w ?b ?s ?r ?t ?p ?tr] =>
        pose proof (send_message_keeps w b s r t p tr RetrievalAgent.name)
          as K;
        destruct (send_message w b s r t p tr) as [tid' mcp3]
    end.
    do 2 eexists; split; [|split; reflexivity].
    apply K; [discriminate | exact F].
  - do 2 eexists; split; [|split; reflexivity].
    exact F.
Qed.

Lemma search_documents_keeps (w : World.t) (self : RetrievalAgent.t)
    (mcp : Bus) (query : string) (top_k : Z) (trace : option string) :
  Forall (not_for RetrievalAgent.name) (message_queue mcp) ->
  Forall (not_for RetrievalAgent.name)
    (message_queue
       (snd (RetrievalAgent.search_documents w self mcp query top_k trace))).
Proof.
  intros F; unfold RetrievalAgent.search_documents.
  destruct (negb (RetrievalAgent.is_initialized self)); auto.
  destruct (VectorStore.search w _ query top_k); auto.
  destruct (match trace with Some s => truthy s | None => false end); auto.
  match goal with
  | |- context [send_message w ?b ?s ?r ?t ?p ?tr] =>
      pose proof (send_message_keeps w b s r t p tr RetrievalAgent.name) as K;
      destruct (send_message w b s r t p tr) as [tid mcp2]
  end.
  apply K; [discriminate | exact F].
Qed.

Lemma generate_response_keeps (w : World.t) (mcp : Bus)
    (query trace : string) :
  Forall (not_for RetrievalAgent.name) (message_queue mcp) ->
  Forall (not_for RetrievalAgent.name)
    (message_queue
       (snd (LLMResponseAgent.generate_response w mcp query trace))).
Proof.
  intros F; unfold LLMResponseAgent.generate_response.
  pose proof (receive_message_keeps _ mcp LLMResponseAgent.name F) as R.
  destruct (receive_message mcp LLMResponseAgent.name) as [[m|] mcp1];
    simpl in R; auto.
  destruct (negb (String.eqb (MCPProtocol.type m) "CONTEXT_RESPONSE")); auto.
  destruct (Payload.retrieved_context_of _); auto.
  destruct (LLMResponseAgent.build_context w a) as [text sources].
  destruct (World.generate w _).
  - match goal with
    | |- context [send_message w ?b ?s ?r ?t ?p ?tr] =>
        pose proof (send_message_keeps w b s r t p tr RetrievalAgent.name)
          as K;
        destruct (send_message w b s r t p tr) as [tid mcp2]
    end.
    apply K; [discriminate | exact R].
  - match goal with
    | |- context [send_message w ?b ?s ?r ?t ?p ?tr] =>
        pose proof (send_message_keeps w b s r t p tr RetrievalAgent.name)
          as K;
        destruct (send_message w b s r t p tr) as [tid mcp2]
    end.
    apply K; [discriminate | exact R].
Qed.

(** [answer_question] does not write the coordinator and queues nothing
    for the retrieval agent. *)
Lemma answer_question_keeps (w : World.t) (self : CoordinatorAgent.t)
    (mcp : Bus) (query : string) :
  Forall (not_for RetrievalAgent.name) (message_queue mcp) ->
  snd (fst (CoordinatorAgent.answer_question w self mcp query)) = self
  /\ Forall (not_for RetrievalAgent.name)
       (message_queue
          (snd (CoordinatorAgent.answer_question w self mcp query))).
Proof.
  intros F; unfold CoordinatorAgent.answer_question, generate_trace_id.
  destruct (negb (CoordinatorAgent.documents_processed self)); auto.
  match goal with
  | |- context [RetrievalAgent.search_documents w ?a ?b ?q ?k ?tr] =>
      pose proof (search_documents_keeps w a b q k tr F) as S;
      destruct (RetrievalAgent.search_documents w a b q k tr) as [found mcp1]
  end.
  simpl in S.
  destruct found as [chunks|e]; auto.
  match goal with
  | |- context [LLMResponseAgent.generate_response w ?b ?q ?tr] =>
      pose proof (generate_response_keeps w b q tr S) as G;
      destruct (LLMResponseAgent.generate_response w b q tr)
        as [response mcp2]
  end.
  destruct response; auto.
Qed.

(** With the flag down [answer_question] returns the "not ready" answer
    and leaves the coordinator and the bus as they are. *)
Lemma answer_question_not_ready (w : World.t) (self : CoordinatorAgent.t)
    (mcp : Bus) (query : string) :
  CoordinatorAgent.documents_processed self = false ->
  CoordinatorAgent.answer_question w self mcp query
  = (CoordinatorAgent.not_ready, self, mcp).
Proof.
  intros H; unfold CoordinatorAgent.answer_question; now rewrite H.
Qed.

Lemma ready_after_app (outs : list outcome) (out : outcome) :
  ready_after (outs ++ [out]) = ready_next (ready_after outs) out.
Proof. unfold ready_after; now rewrite fold_left_app. Qed.

Lemma step_settled (w : World.t) (outs : list outcome) (st : state) (o : op) :
  settled (outs, st) ->
  settled (outs ++ [fst (step w st o)], snd (step w st o)).
Proof.
  destruct st as [self mcp]; unfold settled; simpl; intros [Hf Hq].
  rewrite ready_after_app.
  destruct o as [file_paths|query|]; simpl.
  - destruct (process_documents_outcome w self mcp file_paths Hq)
      as (self' & mcp' & Hq' & H).
    destruct (VectorStore.add_documents w _ _); destruct H as [-> Hd]; simpl;
      split; auto; congruence.
  - destruct (answer_question_keeps w self mcp query Hq) as [Hs Hq'].
    destruct (CoordinatorAgent.answer_question w self mcp query)
      as [[response self'] mcp']; simpl in *; subst; auto.
  - split; [reflexivity | constructor].
Qed.

Lemma run_from_settled (w : World.t) (ops : list op) :
  forall outs st, settled (outs, st) -> settled (run_from w outs st ops).
Proof.
  unfold run_from; induction ops as [|o ops IH]; intros outs st H; simpl; auto.
  pose proof (step_settled w outs st o H) as H'.
  destruct (step w st o) as [out st']; now apply IH.
Qed.

(** Every state a run reaches is settled. *)
Lemma run_settled (w : World.t) (ops : list op) : settled (run w ops).
Proof.
  apply run_from_settled; split; [reflexivity | constructor].
Qed.

(** C7.  In every state the coordinator reaches while the pipeline is not
    ready (no [process_documents] call has returned [True], or the system
    was cleared since), [answer_question] returns the "not ready" answer,
    whose error field is set and whose source list is empty, and returns
    the coordinator and the bus as they were: nothing is sent, the queue
    and the history are the same. *)
Theorem answer_before_ready_is_rejected (w : World.t) (ops : list op)
    (query : string) :
  ready_after (fst (run w ops)) = false ->
  CoordinatorAgent.answer_question w (fst (snd (run w ops)))
                                   (snd (snd (run w ops))) query
  = (CoordinatorAgent.not_ready, fst (snd (run w ops)), snd (snd (run w ops)))
  /\ Response.error CoordinatorAgent.not_ready
     = Some "No documents processed"
  /\ Response.sources CoordinatorAgent.not_ready = [].
Proof.
  intros H; destruct (run_settled w ops) as [Hf _].
  split; [|split; reflexivity].
  apply answer_question_not_ready; congruence.
Qed.

Lemma answer_before_ready_is_rejected_witness :
  CoordinatorAgent.answer_question Example.world
    (fst (snd (run Example.world Example.session)))
    (snd (snd (run Example.world Example.session))) "beta"
  = (CoordinatorAgent.not_ready,
     fst (snd (run Example.world Example.session)),
     snd (snd (run Example.world Example.session)))
  /\ Response.error CoordinatorAgent.not_ready
     = Some "No documents processed"
  /\ Response.sources CoordinatorAgent.not_ready = [].
Proof.
  apply (answer_before_ready_is_rejected Example.world Example.session "beta").
  vm_compute; reflexivity.
Defined.

Lemma entries_of_error_records (docs : list DocumentParser.Document) :
  Forall (fun d => DocumentParser.chunks d = []) docs ->
  StoreRun.entries docs = [].
Proof.
  induction 1 as [|d docs Hd _ IH]; simpl; auto.
  now rewrite Hd, IH.
Qed.

(** C8.  In every state the coordinator reaches and for every batch:
    [process_documents] of the ingestion agent records one document per
    file, in order, each depending on its own file only; the document of a
    file whose extraction fails (unsupported extension or a reader that
    raises) has no chunk and carries the error message; and the run of the
    coordinator returns [True] as soon as the index takes the recorded
    documents, which it does when every file of the batch failed. *)
Theorem parse_failure_is_not_fatal (w : World.t) (ops : list op)
    (file_paths : list string) :
  (forall self mcp trace,
      fst (fst (IngestionAgent.process_documents w self mcp file_paths trace))
      = map (IngestionAgent.process_file w) file_paths)
  /\ (forall file_path e,
        extraction_error w file_path = Some e ->
        error_record (IngestionAgent.process_file w file_path) e)
  /\ (forall store,
        VectorStore.add_documents w
          (RetrievalAgent.vector_store
             (CoordinatorAgent.retrieval_agent (fst (snd (run w ops)))))
          (map (IngestionAgent.process_file w) file_paths)
        = Ok store ->
        fst (fst (CoordinatorAgent.process_documents w
                    (fst (snd (run w ops))) (snd (snd (run w ops)))
                    file_paths))
        = true)
  /\ (Forall (fun file_path => extraction_error w file_path <> None)
             file_paths ->
      fst (fst (CoordinatorAgent.process_documents w
                  (fst (snd (run w ops))) (snd (snd (run w ops)))
                  file_paths))
      = true).
Proof.
  destruct (run_settled w ops) as [_ Hq].
  destruct (process_documents_outcome w (fst (snd (run w ops)))
              (snd (snd (run w ops))) file_paths Hq)
    as (self' & mcp' & _ & H).
  split; [|split; [|split]].
  - intros self mcp trace; unfold IngestionAgent.process_documents.
    rewrite IngestionFacts.loop_records_every_file.
    now destruct (send_message w _ _ _ _ _ _).
  - apply IngestionFacts.process_file_error.
  - intros store E; rewrite E in H; destruct H as [-> _]; reflexivity.
  - intros F.
    assert (E : StoreRun.entries
                  (map (IngestionAgent.process_file w) file_paths) = []).
    { apply entries_of_error_records, Forall_map.
      eapply Forall_impl; [|exact F].
      intros p Hp; destruct (extraction_error w p) as [e|] eqn:Ee;
        [|congruence].
      apply (IngestionFacts.process_file_error w p e Ee). }
    unfold VectorStore.add_documents in H.
    rewrite StoreFacts.gather_entries, E in H; simpl in H.
    destruct H as [-> _]; reflexivity.
Qed.

Lemma parse_failure_is_not_fatal_witness :
  map DocumentParser.chunks
      (fst (fst (IngestionAgent.process_documents Example.world
                   IngestionAgent.init MCPProtocol.init Example.batch
                   "00000000")))
  = map DocumentParser.chunks
        (map (IngestionAgent.process_file Example.world) Example.batch)
  /\ error_record (IngestionAgent.process_file Example.world "broken.PDF")
                  (Exception "EOF marker not found")
  /\ error_record (IngestionAgent.process_file Example.world "image.png")
                  (ValueError "Unsupported file format: .png")
  /\ fst (fst (CoordinatorAgent.process_documents Example.world
                 (fst (snd (run Example.world Example.session)))
                 (snd (snd (run Example.world Example.session)))
                 Example.batch))
     = true
  /\ fst (fst (CoordinatorAgent.process_documents Example.world
                 (fst (snd (run Example.world Example.session)))
                 (snd (snd (run Example.world Example.session)))
                 ["broken.PDF"; "image.png"]))
     = true.
Proof.
  destruct (parse_failure_is_not_fatal Example.world Example.session
              Example.batch) as (H1 & H2 & H3 & _).
  destruct (parse_failure_is_not_fatal Example.world Example.session
              ["broken.PDF"; "image.png"]) as (_ & _ & _ & H4).
  refine (conj (f_equal _ (H1 _ _ _)) (conj (H2 _ _ _) (conj (H2 _ _ _)
           (conj (H3 _ _) (H4 _))))).
  - reflexivity.
  - reflexivity.
  - vm_compute; reflexivity.
  - repeat constructor; discriminate.
Defined.

End PipelineFacts.

(** ** More on the bus: history, live queue, hand-off *)

Module BusHistory.
Import Py BusRun MCPProtocol BusOps BusFacts.

Section Generic.
Context {P : Type}.
Implicit Types (mcp : MCPProtocol.t P) (m : MCPMessage P).

Lemma subseq_refl {A} (l : list A) : subseq l l.
Proof. induction l; [apply subseq_nil | now apply subseq_keep]. Qed.

Lemma subseq_nil_l {A} (l : list A) : subseq [] l.
Proof. induction l; [apply subseq_nil | now apply subseq_skip]. Qed.

Lemma subseq_trans {A} (l1 l2 l3 : list A) :
  subseq l1 l2 -> subseq l2 l3 -> subseq l1 l3.
Proof.
  intros H12 H23; revert l1 H12.
  induction H23 as [|x l2 l3 H IH|x l2 l3 H IH]; intros l1 H12; auto.
  - apply subseq_skip; auto.
  - inversion H12; subst; [apply subseq_skip | apply subseq_keep]; auto.
Qed.

Lemma subseq_app {A} (l1 l1' l2 l2' : list A) :
  subseq l1 l1' -> subseq l2 l2' -> subseq (l1 ++ l2) (l1' ++ l2').
Proof.
  induction 1; intros H2; simpl; auto;
    [apply subseq_skip | apply subseq_keep]; auto.
Qed.

Lemma subseq_remove {A} (pre post : list A) (x : A) :
  subseq (pre ++ post) (pre ++ x :: post).
Proof.
  apply subseq_app; [apply subseq_refl|].
  apply subseq_skip, subseq_refl.
Qed.

Lemma receive_history mcp agent :
  message_history (snd (receive_message mcp agent)) = message_history mcp.
Proof.
  destruct (queue_cases agent (message_queue mcp))
    as [N | (pre & m & post & Hq & N & Hm)].
  - now rewrite (receive_none mcp agent N).
  - now rewrite (receive_first mcp agent pre m post Hq N Hm).
Qed.

Lemma receive_subseq mcp agent :
  subseq (message_queue (snd (receive_message mcp agent))) (message_queue mcp).
Proof.
  destruct (queue_cases agent (message_queue mcp))
    as [N | (pre & m & post & Hq & N & Hm)].
  - rewrite (receive_none mcp agent N); apply subseq_refl.
  - rewrite (receive_first mcp agent pre m post Hq N Hm), Hq; simpl.
    apply subseq_remove.
Qed.

(** The history is a log of the sends: whatever calls are made on the
    bus, in whatever order, the history afterwards is the history of
    before followed by one envelope per [send_message] call, in call order
    and with the sender, receiver, type and payload of the call;
    [receive_message], [clear_queue] and [generate_trace_id] never write
    it. *)
Theorem history_is_send_log (w : World.t) mcp (ops : list (op P)) :
  exists sent,
    message_history (run w mcp ops) = message_history mcp ++ sent
    /\ map call_of sent = map call_of_args (sends_of ops).
Proof.
  revert mcp; induction ops as [|o ops IH]; intros mcp.
  - exists []; simpl; now rewrite app_nil_r.
  - destruct (IH (step w mcp o)) as (sent & Hh & Hc).
    unfold run in *; simpl; rewrite Hh.
    destruct o as [a|agent| |]; simpl.
    + destruct (send_queue w mcp a) as (m & _ & Hm & Hcm).
      exists (m :: sent); rewrite Hm, <- app_assoc; simpl; split; auto.
      now rewrite Hcm, Hc.
    + exists sent; now rewrite receive_history.
    + exists sent; auto.
    + exists sent; auto.
Qed.

(** From a new bus on, the live queue is the history with some envelopes
    left out, the others in their order: an envelope is queued only by a
    send, which also logs it, and nothing ever puts one back or reorders
    the queue. *)
Theorem queue_within_history (w : World.t) (ops : list (op P)) :
  subseq (message_queue (run w init ops)) (message_history (run w init ops)).
Proof.
  unfold run.
  assert (H : subseq (message_queue (@init P)) (message_history (@init P)))
    by apply subseq_nil.
  revert H; generalize (@init P) as mcp.
  induction ops as [|o ops IH]; intros mcp H; simpl; auto.
  apply IH; destruct o as [a|agent| |]; simpl.
  - destruct (send_queue w mcp a) as (m & -> & -> & _).
    apply subseq_app; [exact H | apply subseq_refl].
  - rewrite receive_history.
    eapply subseq_trans; [apply receive_subseq | exact H].
  - apply subseq_nil_l.
  - exact H.
Qed.

(** The hand-off: when nothing is queued for the receiver, a send followed
    by a receive for that receiver returns the envelope just sent and
    leaves the queue as it was before the send; the envelope stays in the
    history. *)
Theorem send_then_receive (w : World.t) mcp (a : SendArgs P) :
  Forall (not_for (BusRun.receiver a)) (message_queue mcp) ->
  exists m,
    receive_message (send w mcp a) (BusRun.receiver a)
    = (Some m, with_queue (send w mcp a) (message_queue mcp))
    /\ call_of m = call_of_args a
    /\ message_history (send w mcp a) = message_history mcp ++ [m].
Proof.
  intros F.
  destruct (send_queue w mcp a) as (m & Hq & Hh & Hc).
  exists m; repeat split; auto.
  rewrite (receive_first (send w mcp a) _ (message_queue mcp) m [] Hq F).
  - now rewrite app_nil_r.
  - unfold call_of, call_of_args in Hc; congruence.
Qed.

(** The trace id of a send.  [send_message] returns the id its envelope
    carries: the one supplied when that is a non-empty string, else (for
    [None] and for the empty string alike) the first eight characters of a
    fresh uuid.  When the id is not empty, [get_message_history] for it
    gains exactly the new envelope, and for any other id it is as
    before. *)
Theorem send_extends_trace (w : World.t) mcp (s r t : string) (p : P)
    (tr : option string) :
  exists m,
    message_history (snd (send_message w mcp s r t p tr))
    = message_history mcp ++ [m]
    /\ MCPProtocol.trace_id m = fst (send_message w mcp s r t p tr)
    /\ fst (send_message w mcp s r t p tr)
       = match tr with
         | Some x => if truthy x then x
                     else str_prefix 8 (World.uuid4 w (calls mcp))
         | None => str_prefix 8 (World.uuid4 w (calls mcp))
         end
    /\ (truthy (MCPProtocol.trace_id m) = true ->
        get_message_history (snd (send_message w mcp s r t p tr))
                            (Some (MCPProtocol.trace_id m))
        = get_message_history mcp (Some (MCPProtocol.trace_id m)) ++ [m])
    /\ (forall other,
          other <> MCPProtocol.trace_id m -> truthy other = true ->
          get_message_history (snd (send_message w mcp s r t p tr))
                              (Some other)
          = get_message_history mcp (Some other)).
Proof.
  unfold send_message, generate_trace_id, get_message_history.
  destruct tr as [x|]; [destruct (truthy x) eqn:Tx|]; simpl;
    eexists; (split; [reflexivity|]); simpl;
    (split; [reflexivity|]); (split; [reflexivity|]); split.
  all: try (intros ->; rewrite filter_app; simpl; unfold has_trace at 2;
            simpl; now rewrite String.eqb_refl).
  all: intros other Hne ->; rewrite filter_app; simpl; unfold has_trace at 2;
    simpl; apply not_eq_sym, String.eqb_neq in Hne; rewrite Hne;
    now rewrite app_nil_r.
Qed.

End Generic.

Lemma send_then_receive_witness :
  exists m,
    receive_message
      (send Example.world (Example.bus_of [Example.to_llm])
            Example.to_retrieval)
      (BusRun.receiver Example.to_retrieval)
    = (Some m,
       with_queue (send Example.world (Example.bus_of [Example.to_llm])
                        Example.to_retrieval)
                  (message_queue (Example.bus_of [Example.to_llm])))
    /\ call_of m = call_of_args Example.to_retrieval
    /\ message_history
         (send Example.world (Example.bus_of [Example.to_llm])
               Example.to_retrieval)
       = message_history (Example.bus_of [Example.to_llm]) ++ [m].
Proof.
  apply (send_then_receive Example.world (Example.bus_of [Example.to_llm])
           Example.to_retrieval).
  constructor; [discriminate | constructor].
Defined.

End BusHistory.

(** ** More on the chunker: what the chunks hold *)

Module ChunkerMore.
Import Py Spec PyFacts ChunkerFacts DocumentParser.

Lemma split_word_then (w tail : string) :
  is_word w -> starts_word tail = false ->
  split (w ++ tail)%string = w :: split tail.
Proof.
  intros [Hn Hs] Ht; induction w as [|c w IH]; [congruence|].
  simpl in Hs; apply andb_prop in Hs as [Hc Hs].
  apply negb_true_iff in Hc.
  simpl; rewrite Hc.
  destruct w as [|c' w].
  - simpl; now rewrite Ht.
  - assert (Hw : starts_word (String c' w ++ tail)%string = true).
    { simpl in Hs; apply andb_prop in Hs as [Hc' _]; exact Hc'. }
    rewrite Hw, IH; auto; discriminate.
Qed.

(** Splitting a join of tokens gives the tokens back. *)
Lemma split_join_words (ws : list string) :
  Forall is_word ws -> split (join " " ws) = ws.
Proof.
  induction 1 as [|w ws Hw Hws IH]; [reflexivity|].
  destruct ws as [|w' ws].
  - pose proof (split_word_then w EmptyString Hw eq_refl) as E.
    assert (R : (w ++ EmptyString)%string = w)
      by (clear; induction w; simpl; congruence).
    rewrite R in E; exact E.
  - change (join " " (w :: w' :: ws))
      with (w ++ (String " " (join " " (w' :: ws))))%string.
    rewrite split_word_then; auto.
    f_equal; exact IH.
Qed.

Lemma slice_forward {A} (l : list A) (i cs : Z) :
  0 <= i -> 0 < cs ->
  slice l i (i + cs)
  = firstn (Z.to_nat (Z.min (i + cs) (len l) - Z.min i (len l)))
           (skipn (Z.to_nat (Z.min i (len l))) l).
Proof.
  intros Hi Hcs; unfold slice, clamp.
  destruct (Z.ltb_spec i 0); [lia|].
  destruct (Z.ltb_spec (i + cs) 0); [lia|]; reflexivity.
Qed.



Lemma len_range (n : nat) (f : nat -> Z) :
  len (map f (seq 0 n)) = Z.of_nat n.
Proof. unfold len; now rewrite length_map, length_seq. Qed.



(** A list cut into consecutive blocks of [s] elements. *)
Lemma blocks_concat {A} (s q : nat) (l : list A) :
  (0 < s)%nat -> (List.length l <= q * s)%nat ->
  List.concat (map (fun k => firstn s (skipn (k * s) l)) (seq 0 q)) = l.
Proof.
  intros Hs; revert l; induction q as [|q IH]; intros l Hl.
  - destruct l; [reflexivity | simpl in Hl; lia].
  - cbn [seq map List.concat]; rewrite <- seq_shift, map_map.
    rewrite (map_ext _ (fun k => firstn s (skipn (k * s) (skipn s l)))).
    + rewrite IH by (rewrite length_skipn; lia).
      apply firstn_skipn.
    + intros k; rewrite skipn_skipn; do 2 f_equal; lia.
Qed.

Lemma firstn_min_length {A} (s : nat) (l : list A) :
  firstn (Nat.min s (List.length l)) l = firstn s l.
Proof.
  destruct (Nat.le_ge_cases s (List.length l)).
  - now rewrite Nat.min_l.
  - rewrite Nat.min_r, firstn_all, firstn_all2; auto.
Qed.

(** The first [stride] tokens of a window are the tokens of its stride. *)
Lemma window_stride {A} (l : list A) (i cs s : Z) :
  0 <= i < len l -> 0 < s <= cs ->
  firstn (Z.to_nat s) (slice l i (i + cs))
  = firstn (Z.to_nat s) (skipn (Z.to_nat i) l).
Proof.
  intros Hi Hs; rewrite slice_forward by lia.
  rewrite firstn_firstn, (Z.min_l i (len l)) by lia.
  destruct (Z.le_gt_cases (i + cs) (len l)).
  - rewrite (Z.min_l (i + cs)) by lia; f_equal; lia.
  - rewrite (Z.min_r (i + cs)) by lia.
    rewrite <- (firstn_min_length (Z.to_nat s)); f_equal.
    rewrite length_skipn; unfold len in *; lia.
Qed.

(** No token is lost.  With an overlap from 0 up to below the chunk size,
    taking from every chunk its first [chunk_size - overlap] tokens and
    putting them end to end gives the tokens of the text, all of them and
    in order. *)
Theorem chunks_cover_text (content : string) (chunk_size overlap : Z) :
  0 <= overlap -> overlap < chunk_size ->
  exists chunks,
    _create_chunks content chunk_size overlap = Ok chunks
    /\ List.concat (map (fun chunk =>
                      firstn (Z.to_nat (chunk_size - overlap)) (split chunk))
                   chunks)
       = split content.
Proof.
  intros Hov Hcs.
  destruct (blank content) eqn:B.
  { exists []; split; [now apply create_chunks_blank|].
    apply split_blank in B; now rewrite B. }
  destruct (create_chunks_windows content chunk_size overlap)
    as (r & Hr & Hc); [lia | lia | exact B |].
  eexists; split; [exact Hc|].
  set (words := split content) in *.
  set (step := chunk_size - overlap) in *.
  assert (Hstep : 0 < step <= chunk_size) by (subst step; lia).
  clearbody step.
  destruct (range0_forward (len words) step)
    as (r' & Hr' & Hlen & Hin); [lia | unfold len; lia |].
  rewrite Hr in Hr'; injection Hr' as <-.
  unfold range0 in Hr; destruct (step =? 0); [discriminate|].
  injection Hr as Hr; rewrite <- Hr in *.
  rewrite !map_map.
  rewrite (map_ext_in _
             (fun k => firstn (Z.to_nat step)
                              (skipn (k * Z.to_nat step) words))).
  - apply blocks_concat; [lia|].
    rewrite len_range in Hlen.
    assert (Hq : len words <= Z.of_nat (Z.to_nat (range_len (len words) step))
                              * step).
    { rewrite Hlen, <- ceil_div_range by lia.
      pose proof (Z.div_mod (len words + step - 1) step).
      pose proof (Z.mod_pos_bound (len words + step - 1) step (proj1 Hstep)).
      nia. }
    apply Nat2Z.inj_le; rewrite Nat2Z.inj_mul, (Z2Nat.id step) by lia.
    exact Hq.
  - intros k Hk.
    assert (Hi : 0 <= Z.of_nat k * step < len words).
    { apply Hin, in_map_iff; exists k; split; auto. }
    unfold window; rewrite split_join_words
      by (apply slice_Forall, split_words).
    rewrite window_stride by lia.
    do 2 f_equal; lia.
Qed.

Lemma chunks_cover_text_witness :
  exists chunks,
    _create_chunks " one two  three four five " 3 1 = Ok chunks
    /\ List.concat (map (fun chunk => firstn (Z.to_nat (3 - 1)) (split chunk))
                   chunks)
       = split " one two  three four five ".
Proof.
  apply (chunks_cover_text " one two  three four five " 3 1); lia.
Defined.

End ChunkerMore.


(** ** More on the parser *)

Module ParserMore.
Import Py Spec CoordRun DocumentParser.

(** [parse_document] raises for an unsupported extension only, and then a
    [ValueError] that names the lower-cased extension.  For a supported
    extension (whatever its case) it returns a document named after the
    file, also when the reader of the format raises. *)
Theorem parse_document_raises_only_unsupported (w : World.t)
    (file_path : string) :
  if mem (lower (World.suffix w file_path)) supported_formats
  then exists d,
         parse_document w file_path = Ok d
         /\ filename d = World.name w file_path
  else parse_document w file_path
       = Raise (ValueError
                  ("Unsupported file format: "
                     ++ lower (World.suffix w file_path))%string).
Proof.
  unfold parse_document.
  destruct (mem (lower (World.suffix w file_path)) supported_formats);
    [simpl | reflexivity].
  destruct (String.eqb _ ".pdf").
  { unfold _parse_pdf; destruct (World.pdf_pages w file_path); simpl; eauto.
    match goal with
    | |- context [_create_chunks ?c 500 50] =>
        destruct (IngestionFacts.create_chunks_default c) as [chunks ->]
    end; simpl; eauto. }
  destruct (String.eqb _ ".pptx").
  { unfold _parse_pptx; destruct (World.pptx_slides w file_path); simpl; eauto.
    match goal with
    | |- context [_create_chunks ?c 500 50] =>
        destruct (IngestionFacts.create_chunks_default c) as [chunks ->]
    end; simpl; eauto. }
  destruct (String.eqb _ ".docx").
  { unfold _parse_docx; destruct (World.docx_paragraphs w file_path); simpl;
      eauto.
    match goal with
    | |- context [_create_chunks ?c 500 50] =>
        destruct (IngestionFacts.create_chunks_default c) as [chunks ->]
    end; simpl; eauto. }
  destruct (String.eqb _ ".csv").
  { unfold _parse_csv; destruct (World.read_csv w file_path); simpl; eauto. }
  unfold _parse_text; destruct (World.read_text w file_path) as [content|];
    simpl; eauto.
  destruct (IngestionFacts.create_chunks_default content) as [chunks ->];
    simpl; eauto.
Qed.

Lemma rows_loop (cols : list string) (l : list (Z * list string))
    (acc : list string) :
  fold_left (fun acc '(idx, row) => acc ++ [row_text cols idx row]) l acc
  = acc ++ map (fun '(idx, row) => row_text cols idx row) l.
Proof.
  revert acc; induction l as [|[i row] l IH]; intros acc; simpl.
  - now rewrite app_nil_r.
  - now rewrite IH, <- app_assoc.
Qed.

Lemma nth_error_enumerate {A} (l : list A) (k : nat) (a : A) :
  nth_error l k = Some a ->
  nth_error (enumerate l) k = Some (Z.of_nat k, a).
Proof.
  unfold enumerate.
  assert (G : forall start,
             nth_error l k = Some a ->
             nth_error (combine (map Z.of_nat (seq start (List.length l))) l) k
             = Some (Z.of_nat (start + k), a)).
  { revert k; induction l as [|x l IH]; intros [|k] start H; simpl in *;
      try discriminate.
    - injection H as ->; do 3 f_equal; lia.
    - rewrite (IH k (S start) H); do 3 f_equal; lia. }
  apply G.
Qed.

(** A CSV file that reads is chunked by row: as many chunks as rows, the
    k-th chunk (from 0) being the text of row k with the label
    [Row k+1]; the metadata give the row count and the column names. *)
Theorem csv_one_chunk_per_row (w : World.t) (file_path : string)
    (df : World.CsvFrame) :
  World.read_csv w file_path = Ok df ->
  exists d,
    _parse_csv w file_path = Ok d
    /\ len (chunks d) = len (World.rows df)
    /\ metadata d = MetaCsv (len (World.rows df)) (World.columns df)
    /\ forall k row,
         nth_error (World.rows df) k = Some row ->
         nth_error (chunks d) k
         = Some (row_text (World.columns df) (Z.of_nat k) row).
Proof.
  intros E; unfold _parse_csv; rewrite E.
  eexists; split; [reflexivity|]; simpl.
  rewrite rows_loop; simpl.
  split; [|split; [reflexivity|]].
  - unfold len; rewrite length_map, StoreFacts.enumerate_length; reflexivity.
  - intros k row Hk.
    rewrite nth_error_map, (nth_error_enumerate _ _ _ Hk); reflexivity.
Qed.

Lemma csv_one_chunk_per_row_witness :
  exists d,
    _parse_csv Example.world_csv "people.CSV" = Ok d
    /\ len (chunks d) = len (World.rows Example.frame)
    /\ metadata d
       = MetaCsv (len (World.rows Example.frame))
                 (World.columns Example.frame)
    /\ forall k row,
         nth_error (World.rows Example.frame) k = Some row ->
         nth_error (chunks d) k
         = Some (row_text (World.columns Example.frame) (Z.of_nat k) row).
Proof.
  apply (csv_one_chunk_per_row Example.world_csv "people.CSV" Example.frame).
  reflexivity.
Defined.

(** A text or markdown file that reads is kept whole as the content and
    chunked with a window of 500 tokens and a stride of 450: [N] tokens
    give [ceil(N / 450)] chunks.  The format in the metadata is the suffix
    as written in the path, its case kept. *)
Theorem text_file_chunks (w : World.t) (file_path content : string) :
  mem (lower (World.suffix w file_path)) [".txt"; ".md"] = true ->
  World.read_text w file_path = Ok content ->
  exists d,
    parse_document w file_path = Ok d
    /\ DocumentParser.content d = content
    /\ len (chunks d) = ceil_div (len (split content)) 450
    /\ metadata d
       = MetaText (slice_str_from1 (World.suffix w file_path))
                  (Z.of_nat (String.length content)).
Proof.
  intros Hx Hr; unfold parse_document.
  set (ext := lower (World.suffix w file_path)) in *.
  assert (Hs : mem ext supported_formats = true
               /\ String.eqb ext ".pdf" = false
               /\ String.eqb ext ".pptx" = false
               /\ String.eqb ext ".docx" = false
               /\ String.eqb ext ".csv" = false).
  { unfold mem in *; simpl in *.
    destruct (String.eqb_spec ext ".txt") as [E|_];
      [rewrite E; repeat split; reflexivity|].
    destruct (String.eqb_spec ext ".md") as [E|_];
      [rewrite E; repeat split; reflexivity | discriminate]. }
  destruct Hs as (-> & -> & -> & -> & ->); simpl.
  unfold _parse_text; rewrite Hr; simpl.
  destruct (ChunkerFacts.create_chunks_count content 500 50)
    as (cs & Hc & Hb & Hn); try lia.
  rewrite Hc; simpl.
  eexists; split; [reflexivity|]; simpl.
  split; [reflexivity|]; split; [|reflexivity].
  destruct (blank content) eqn:B.
  - rewrite (Hb eq_refl).
    apply PyFacts.split_blank in B; rewrite B; reflexivity.
  - apply Hn.
    destruct (split content) eqn:S; [|unfold len; simpl; lia].
    apply PyFacts.split_blank in S; congruence.
Qed.

Lemma text_file_chunks_witness :
  exists d,
    parse_document Example.world "notes.txt" = Ok d
    /\ DocumentParser.content d = "alpha beta gamma"
    /\ len (chunks d) = ceil_div (len (split "alpha beta gamma")) 450
    /\ metadata d
       = MetaText (slice_str_from1 (World.suffix Example.world "notes.txt"))
                  (Z.of_nat (String.length "alpha beta gamma")).
Proof.
  apply (text_file_chunks Example.world "notes.txt" "alpha beta gamma");
    reflexivity.
Defined.

End ParserMore.

(** ** More on the vector store *)

Module StoreMore.
Import Py StoreRun StoreFacts.

(** A batch without any chunk (no document, or only documents recorded
    for failed files) leaves the store as it is and does not call the
    embedding model: the call returns whatever the state of the model. *)
Theorem add_documents_without_chunks (w : World.t) (store : VectorStore.t)
    (documents : list DocumentParser.Document) :
  Forall (fun d => DocumentParser.chunks d = []) documents ->
  VectorStore.add_documents w store documents = Ok store.
Proof.
  intros F; unfold VectorStore.add_documents.
  rewrite gather_entries.
  assert (E : entries documents = []).
  { induction F as [|d ds Hd _ IH]; simpl; auto.
    unfold entries in *; simpl; now rewrite Hd, IH. }
  now rewrite E.
Qed.

Lemma add_documents_without_chunks_witness :
  VectorStore.add_documents Example.world_csv
    (Example.store_of [Example.notes])
    [IngestionAgent.process_file Example.world "image.png"]
  = Ok (Example.store_of [Example.notes]).
Proof.
  apply (add_documents_without_chunks Example.world_csv
           (Example.store_of [Example.notes])
           [IngestionAgent.process_file Example.world "image.png"]).
  constructor; [reflexivity | constructor].
Defined.

Lemma total_chunks_from (docs : list DocumentParser.Document) (acc : Z) :
  fold_left Z.add (map (fun doc => len (DocumentParser.chunks doc)) docs) acc
  = acc + len (entries docs).
Proof.
  revert acc; induction docs as [|d docs IH]; intros acc; simpl.
  - unfold len; simpl; lia.
  - rewrite IH; unfold entries; simpl; fold (entries docs).
    rewrite len_app; unfold entries_of.
    rewrite len_map; unfold len at 3; rewrite enumerate_length.
    unfold len; lia.
Qed.

(** A successful [add_documents] raises the chunk count of [get_stats] by
    the number of chunks of the batch, the figure the ingestion agent
    sends as [total_chunks]; the dimension does not change.  The embedding
    function is taken to return one vector per text. *)
Theorem add_documents_counts (w : World.t) (store store' : VectorStore.t)
    (documents : list DocumentParser.Document) :
  one_row_per_text w ->
  VectorStore.add_documents w store documents = Ok store' ->
  Stats.total_chunks (VectorStore.get_stats w store')
  = Stats.total_chunks (VectorStore.get_stats w store)
    + IngestionAgent.total_chunks documents
  /\ Stats.dimension (VectorStore.get_stats w store')
     = Stats.dimension (VectorStore.get_stats w store).
Proof.
  intros Hw E.
  destruct (add_documents_appends w store store' documents Hw E)
    as (_ & _ & Hn & Hd & _).
  unfold VectorStore.get_stats, IngestionAgent.total_chunks; simpl.
  rewrite total_chunks_from; split; [lia | exact Hd].
Qed.

Lemma add_documents_counts_witness :
  Stats.total_chunks
    (VectorStore.get_stats Example.world
       (Example.store_of [Example.notes; Example.notes]))
  = Stats.total_chunks (VectorStore.get_stats Example.world VectorStore.init)
    + IngestionAgent.total_chunks [Example.notes; Example.notes]
  /\ Stats.dimension
       (VectorStore.get_stats Example.world
          (Example.store_of [Example.notes; Example.notes]))
     = Stats.dimension (VectorStore.get_stats Example.world VectorStore.init).
Proof.
  apply (add_documents_counts Example.world VectorStore.init
           (Example.store_of [Example.notes; Example.notes])
           [Example.notes; Example.notes]).
  - intros texts rows H; injection H as <-; apply length_map.
  - vm_compute; reflexivity.
Defined.

Lemma add_documents_dimension (w : World.t) (store store' : VectorStore.t)
    (documents : list DocumentParser.Document) :
  VectorStore.add_documents w store documents = Ok store' ->
  VectorStore.dimension store' = VectorStore.dimension store.
Proof.
  unfold VectorStore.add_documents.
  destruct (VectorStore.gather documents) as [[|c cs] ms].
  - intros H; injection H as <-; reflexivity.
  - destruct (World.encode w (c :: cs)); [simpl|discriminate].
    destruct (Faiss.add (VectorStore.index store) a); [simpl|discriminate].
    intros H; injection H as <-; reflexivity.
Qed.

Lemma run_dimension (w : World.t) (ops : list op) :
  VectorStore.dimension (fst (run w ops)) = 384.
Proof.
  unfold run.
  assert (H : VectorStore.dimension
                (fst (VectorStore.init, @nil (string * ChunkMetadata.t)))
              = 384) by reflexivity.
  revert H; generalize (VectorStore.init, @nil (string * ChunkMetadata.t)).
  induction ops as [|o ops IH]; intros [store log] H; simpl in *; auto.
  apply IH; destruct o as [documents|query top_k|]; simpl; auto.
  destruct (VectorStore.add_documents w store documents) eqn:E; simpl; auto.
  now rewrite (add_documents_dimension _ _ _ _ E).
Qed.

(** [clear] brings the store back to the one [__init__] makes, whatever
    was added, searched or cleared before; a search on it returns the
    empty list and a batch added to it gives what it gives on a new
    store. *)
Theorem clear_restores_initial_store (w : World.t) (ops : list op) :
  VectorStore.clear (fst (run w ops)) = VectorStore.init
  /\ (forall query top_k,
        VectorStore.search w (VectorStore.clear (fst (run w ops)))
                           query top_k = Ok [])
  /\ (forall documents,
        VectorStore.add_documents w (VectorStore.clear (fst (run w ops)))
                                  documents
        = VectorStore.add_documents w VectorStore.init documents).
Proof.
  assert (E : VectorStore.clear (fst (run w ops)) = VectorStore.init).
  { unfold VectorStore.clear; rewrite run_dimension; reflexivity. }
  rewrite E; repeat split.
Qed.

Lemma substring_length_le (n : nat) (s : string) :
  (String.length (substring 0 n s) <= n)%nat.
Proof.
  revert s; induction n as [|n IH]; intros [|c s]; simpl; try lia.
  specialize (IH s); lia.
Qed.

Lemma append_length (s1 s2 : string) :
  String.length (s1 ++ s2)%string
  = (String.length s1 + String.length s2)%nat.
Proof. induction s1; simpl; congruence. Qed.

(** The previews are bounded.  The chunk text kept in the metadata of the
    store has at most 103 characters and the preview of a cited source at
    most 153; a text of at most 100 (150) characters is its own
    preview. *)
Theorem previews_are_bounded (text : string) :
  (String.length (VectorStore.preview text) <= 103)%nat
  /\ (String.length (LLMResponseAgent.preview text) <= 153)%nat
  /\ (if (String.length text <=? 100)%nat
      then VectorStore.preview text = text
      else VectorStore.preview text = (substring 0 100 text ++ "...")%string)
  /\ (if (String.length text <=? 150)%nat
      then LLMResponseAgent.preview text = text
      else LLMResponseAgent.preview text
           = (substring 0 150 text ++ "...")%string).
Proof.
  unfold VectorStore.preview, LLMResponseAgent.preview, str_prefix.
  pose proof (substring_length_le 100 text).
  pose proof (substring_length_le 150 text).
  destruct (Z.ltb_spec 100 (Z.of_nat (String.length text)));
    destruct (Z.ltb_spec 150 (Z.of_nat (String.length text)));
    destruct (Nat.leb_spec (String.length text) 100);
    destruct (Nat.leb_spec (String.length text) 150);
    try lia; rewrite ?append_length; simpl; repeat split; lia.
Qed.


End StoreMore.


(** ** More on the ingestion agent: its statistics *)

Module StatsMore.
Import Py CoordRun.

Lemma dict_get_set {V} (d : list (string * V)) (k k' : string) (v dflt : V) :
  dict_get (dict_set d k v) k' dflt
  = if String.eqb k k' then v else dict_get d k' dflt.
Proof.
  induction d as [|[k0 v0] d IH]; simpl.
  - reflexivity.
  - destruct (String.eqb_spec k0 k) as [->|N]; simpl.
    + destruct (String.eqb k k'); reflexivity.
    + rewrite IH.
      destruct (String.eqb_spec k0 k') as [->|N']; auto.
      apply not_eq_sym, String.eqb_neq in N; now rewrite N.
Qed.

Lemma counts_sum_set (d : list (string * Z)) (k : string) (v : Z) :
  counts_sum (dict_set d k v) = counts_sum d - dict_get d k 0 + v.
Proof.
  unfold counts_sum; induction d as [|[k0 v0] d IH]; simpl.
  - lia.
  - destruct (String.eqb k0 k); simpl; lia.
Qed.

Lemma formats_loop (docs : list DocumentParser.Document)
    (formats : list (string * Z)) :
  let formats' :=
    fold_left
      (fun formats doc =>
         let fmt := IngestionAgent.format_of (DocumentParser.metadata doc) in
         dict_set formats fmt (dict_get formats fmt 0 + 1))
      docs formats in
  counts_sum formats' = counts_sum formats + len docs
  /\ forall fmt,
       dict_get formats' fmt 0
       = dict_get formats fmt 0 + len (with_format fmt docs).
Proof.
  revert formats; induction docs as [|d docs IH]; intros formats;
    cbv zeta; simpl.
  - unfold len; simpl; split; intros; lia.
  - pose proof (IH (dict_set formats
                    (IngestionAgent.format_of (DocumentParser.metadata d))
                    (dict_get formats
                       (IngestionAgent.format_of (DocumentParser.metadata d))
                       0 + 1))) as H.
    cbv zeta in H; destruct H as [Hs Hg].
    split.
    + rewrite Hs, counts_sum_set; unfold len; cbn [List.length filter]; lia.
    + intros fmt; rewrite Hg, dict_get_set.
      unfold with_format; simpl.
      destruct (String.eqb_spec
                  (IngestionAgent.format_of (DocumentParser.metadata d)) fmt)
        as [->|N]; unfold len; cbn [List.length filter]; lia.
Qed.

(** The statistics of the ingestion agent add up: the document count is
    the number of recorded documents, the chunk count the sum of their
    chunk counts, and the format table gives for every format the number
    of recorded documents of that format, the documents of failed files
    under ["unknown"]; its counts sum to the document count. *)
Theorem processing_stats_add_up (self : IngestionAgent.t) :
  ProcessingStats.total_documents (IngestionAgent.get_processing_stats self)
  = len (IngestionAgent.processed_documents self)
  /\ counts_sum (ProcessingStats.formats_processed
                   (IngestionAgent.get_processing_stats self))
     = ProcessingStats.total_documents
         (IngestionAgent.get_processing_stats self)
  /\ (forall fmt,
        dict_get (ProcessingStats.formats_processed
                    (IngestionAgent.get_processing_stats self)) fmt 0
        = len (with_format fmt (IngestionAgent.processed_documents self)))
  /\ ProcessingStats.total_chunks (IngestionAgent.get_processing_stats self)
     = fold_right Z.add 0
         (map (fun d => len (DocumentParser.chunks d))
              (IngestionAgent.processed_documents self)).
Proof.
  unfold IngestionAgent.get_processing_stats; cbv zeta; simpl.
  pose proof (formats_loop (IngestionAgent.processed_documents self) [])
    as H.
  cbv zeta in H; destruct H as [Hs Hg].
  split; [reflexivity|]; split; [|split].
  - rewrite Hs; reflexivity.
  - intros fmt; rewrite Hg; reflexivity.
  - unfold IngestionAgent.total_chunks.
    rewrite fold_symmetric by (intros; lia).
    reflexivity.
Qed.

End StatsMore.

(** ** More on the coordinator: what a call does to the agents and the bus *)

Module PipelineMore.
Import Py BusRun MCPProtocol CoordRun BusFacts PipelineFacts.

Lemma send_message_full (w : World.t) (mcp : Bus)
    (s r t : string) (p : Payload.t) (tr : option string) :
  exists m,
    message_queue (snd (send_message w mcp s r t p tr))
    = message_queue mcp ++ [m]
    /\ message_history (snd (send_message w mcp s r t p tr))
       = message_history mcp ++ [m]
    /\ MCPProtocol.sender m = s
    /\ MCPProtocol.receiver m = r
    /\ MCPProtocol.type m = t
    /\ MCPProtocol.payload m = p
    /\ (forall x, tr = Some x -> truthy x = true -> MCPProtocol.trace_id m = x).
Proof.
  unfold send_message, generate_trace_id.
  destruct tr as [x|]; [destruct (truthy x) eqn:T|]; simpl;
    eexists; (split; [reflexivity|]); simpl;
    repeat (split; [reflexivity|]).
  - intros y H _; now injection H.
  - intros y H Ty; injection H as <-; congruence.
  - intros y H; discriminate.
Qed.

Lemma chunk_info_loop (results : list SearchResult.t)
    (acc : list ChunkInfo.t) :
  fold_left (fun acc result => acc ++ [RetrievalAgent.chunk_info result])
            results acc
  = acc ++ map RetrievalAgent.chunk_info results.
Proof.
  revert acc; induction results as [|r rs IH]; intros acc; simpl.
  - now rewrite app_nil_r.
  - now rewrite IH, <- app_assoc.
Qed.

Lemma len_map_info (results : list SearchResult.t) :
  len (map RetrievalAgent.chunk_info results) = len results.
Proof. unfold len; now rewrite length_map. Qed.

(** What [process_documents] of the coordinator does when nothing is
    queued for the retrieval agent. *)
Lemma process_documents_effect (w : World.t) (self : CoordinatorAgent.t)
    (mcp : Bus) (file_paths : list string) :
  Forall (not_for RetrievalAgent.name) (message_queue mcp) ->
  let docs := map (IngestionAgent.process_file w) file_paths in
  let ingestion :=
    {| IngestionAgent.processed_documents :=
         IngestionAgent.processed_documents
           (CoordinatorAgent.ingestion_agent self) ++ docs |} in
  exists m_ing,
    MCPProtocol.sender m_ing = IngestionAgent.name
    /\ MCPProtocol.receiver m_ing = RetrievalAgent.name
    /\ MCPProtocol.type m_ing = "INGESTION_COMPLETE"
    /\ MCPProtocol.payload m_ing
       = Payload.IngestionComplete docs (len docs)
                                   (IngestionAgent.total_chunks docs)
    /\ (truthy (next_trace_id w mcp) = true ->
        MCPProtocol.trace_id m_ing = next_trace_id w mcp)
    /\ match VectorStore.add_documents w
               (RetrievalAgent.vector_store
                  (CoordinatorAgent.retrieval_agent self)) docs with
       | Ok store =>
           exists m_ready mcp',
             CoordinatorAgent.process_documents w self mcp file_paths
             = (true,
                {| CoordinatorAgent.ingestion_agent := ingestion;
                   CoordinatorAgent.retrieval_agent :=
                     {| RetrievalAgent.vector_store := store;
                        RetrievalAgent.is_initialized := true |};
                   CoordinatorAgent.documents_processed := true |},
                mcp')
             /\ message_queue mcp' = message_queue mcp ++ [m_ready]
             /\ message_history mcp'
                = message_history mcp ++ [m_ing; m_ready]
             /\ MCPProtocol.sender m_ready = RetrievalAgent.name
             /\ MCPProtocol.receiver m_ready = CoordinatorAgent.name
             /\ MCPProtocol.type m_ready = "RETRIEVAL_READY"
             /\ (truthy (next_trace_id w mcp) = true ->
                 MCPProtocol.trace_id m_ready = next_trace_id w mcp)
       | Raise _ =>
           exists mcp',
             CoordinatorAgent.process_documents w self mcp file_paths
             = (false,
                {| CoordinatorAgent.ingestion_agent := ingestion;
                   CoordinatorAgent.retrieval_agent :=
                     CoordinatorAgent.retrieval_agent self;
                   CoordinatorAgent.documents_processed :=
                     CoordinatorAgent.documents_processed self |},
                mcp')
             /\ message_queue mcp' = message_queue mcp
             /\ message_history mcp' = message_history mcp ++ [m_ing]
       end.
Proof.
  intros F docs ingestion.
  unfold CoordinatorAgent.process_documents, generate_trace_id,
    IngestionAgent.process_documents.
  rewrite IngestionFacts.loop_records_every_file; simpl.
  fold docs; fold (next_trace_id w mcp).
  match goal with
  | |- context [send_message w ?b ?s ?r ?t ?p ?tr] =>
      destruct (send_message_full w b s r t p tr)
        as (m & Hq & Hh & Hs & Hr & Ht & Hp & Hid);
      destruct (send_message w b s r t p tr) as [tid mcp2]
  end.
  simpl in Hq, Hh.
  exists m; repeat (split; [assumption|]).
  split; [intros T; now apply Hid|].
  unfold RetrievalAgent.process_ingestion_message.
  rewrite (receive_first mcp2 RetrievalAgent.name (message_queue mcp) m []
             Hq F Hr).
  rewrite Ht, Hp; simpl; rewrite app_nil_r.
  destruct (VectorStore.add_documents w _ docs) as [store|e].
  - match goal with
    | |- context [send_message w ?b ?s ?r ?t ?p ?tr] =>
        destruct (send_message_full w b s r t p tr)
          as (m' & Hq' & Hh' & Hs' & Hr' & Ht' & _ & Hid');
        destruct (send_message w b s r t p tr) as [tid' mcp3]
    end.
    simpl in Hq', Hh'.
    exists m', mcp3; repeat (split; [assumption || reflexivity|]).
    split; [now rewrite Hh', Hh, <- app_assoc|].
    repeat (split; [assumption|]).
    intros T; now apply Hid'.
  - eexists; split; [reflexivity|]; simpl; auto.
Qed.

(** What [answer_question] does on a ready coordinator when nothing is
    queued for the response agent. *)
Lemma answer_question_effect (w : World.t) (self : CoordinatorAgent.t)
    (mcp : Bus) (query : string) :
  CoordinatorAgent.documents_processed self = true ->
  RetrievalAgent.is_initialized (CoordinatorAgent.retrieval_agent self)
  = true ->
  Forall (not_for LLMResponseAgent.name) (message_queue mcp) ->
  match VectorStore.search w
          (RetrievalAgent.vector_store
             (CoordinatorAgent.retrieval_agent self)) query 5 with
  | Raise e =>
      CoordinatorAgent.answer_question w self mcp query
      = (CoordinatorAgent.error_answer e, self, tick mcp)
  | Ok results =>
      let ctx := map RetrievalAgent.chunk_info results in
      if truthy (next_trace_id w mcp) then
        exists m_ctx m_resp response mcp',
          CoordinatorAgent.answer_question w self mcp query
          = (response, self, mcp')
          /\ message_queue mcp' = message_queue mcp ++ [m_resp]
          /\ message_history mcp' = message_history mcp ++ [m_ctx; m_resp]
          /\ MCPProtocol.receiver m_ctx = LLMResponseAgent.name
          /\ MCPProtocol.type m_ctx = "CONTEXT_RESPONSE"
          /\ MCPProtocol.trace_id m_ctx = next_trace_id w mcp
          /\ MCPProtocol.receiver m_resp = CoordinatorAgent.name
          /\ MCPProtocol.trace_id m_resp = next_trace_id w mcp
          /\ MCPProtocol.payload m_resp = Payload.Answer response
          /\ match World.generate w
                     (LLMResponseAgent.prompt_of
                        (fst (LLMResponseAgent.build_context w ctx)) query)
             with
             | Ok text =>
                 MCPProtocol.type m_resp = "RESPONSE_COMPLETE"
                 /\ response
                    = {| Response.answer := strip text;
                         Response.sources :=
                           map LLMResponseAgent.source_of ctx;
                         Response.query := Some query;
                         Response.context_used := Some (len results);
                         Response.error := None |}
             | Raise e =>
                 MCPProtocol.type m_resp = "RESPONSE_ERROR"
                 /\ response
                    = LLMResponseAgent.error_response
                        (map LLMResponseAgent.source_of ctx) e
             end
      else
        CoordinatorAgent.answer_question w self mcp query
        = (LLMResponseAgent.no_context, self, tick mcp)
  end.
Proof.
  intros Hd Hi F.
  unfold CoordinatorAgent.answer_question, generate_trace_id.
  rewrite Hd; simpl.
  unfold RetrievalAgent.search_documents; rewrite Hi; simpl.
  fold (next_trace_id w mcp).
  destruct (VectorStore.search w _ query 5) as [results|e]; [|reflexivity].
  rewrite chunk_info_loop; simpl.
  destruct (truthy (next_trace_id w mcp)) eqn:T.
  2:{ unfold LLMResponseAgent.generate_response.
      rewrite (receive_none (tick mcp) LLMResponseAgent.name F).
      reflexivity. }
  match goal with
  | |- context [send_message w ?b ?s ?r ?t ?p ?tr] =>
      destruct (send_message_full w b s r t p tr)
        as (m & Hq & Hh & Hs & Hr & Ht & Hp & Hid);
      destruct (send_message w b s r t p tr) as [tid mcp2]
  end.
  simpl in Hq, Hh.
  specialize (Hid _ eq_refl T).
  unfold LLMResponseAgent.generate_response.
  rewrite (receive_first mcp2 LLMResponseAgent.name (message_queue mcp) m []
             Hq F Hr).
  rewrite Ht, Hp; simpl; rewrite app_nil_r.
  rewrite <- (build_context_sources w (map RetrievalAgent.chunk_info results)).
  destruct (LLMResponseAgent.build_context w _) as [text sources]; simpl.
  destruct (World.generate w _) as [answer|e].
  - match goal with
    | |- context [send_message w ?b ?s ?r ?t ?p ?tr] =>
        destruct (send_message_full w b s r t p tr)
          as (m' & Hq' & Hh' & Hs' & Hr' & Ht' & Hp' & Hid');
        destruct (send_message w b s r t p tr) as [tid' mcp3]
    end.
    simpl in Hq', Hh'.
    specialize (Hid' _ eq_refl T).
    exists m, m'; do 2 eexists; split; [reflexivity|].
    rewrite Hh', Hh, <- app_assoc.
    rewrite len_map_info in *.
    repeat (split; [assumption || reflexivity|]).
    reflexivity.
  - match goal with
    | |- context [send_message w ?b ?s ?r ?t ?p ?tr] =>
        destruct (send_message_full w b s r t p tr)
          as (m' & Hq' & Hh' & Hs' & Hr' & Ht' & Hp' & Hid');
        destruct (send_message w b s r t p tr) as [tid' mcp3]
    end.
    simpl in Hq', Hh'.
    specialize (Hid' _ eq_refl T).
    exists m, m'; do 2 eexists; split; [reflexivity|].
    rewrite Hh', Hh, <- app_assoc.
    repeat (split; [assumption || reflexivity|]).
    reflexivity.
Qed.

Lemma coordinator_mail_not_for (agent : string) (queue : list Message) :
  agent <> CoordinatorAgent.name ->
  Forall (fun m => MCPProtocol.receiver m = CoordinatorAgent.name) queue ->
  Forall (not_for agent) queue.
Proof.
  intros N F; eapply Forall_impl; [|exact F].
  intros m Hm; unfold not_for; congruence.
Qed.

Lemma step_coherent (w : World.t) (st : state) (o : op) :
  coherent st -> coherent (snd (step w st o)).
Proof.
  destruct st as [self mcp]; unfold coherent; simpl; intros (Hq & Hf & Hd).
  pose proof (coordinator_mail_not_for RetrievalAgent.name _
                ltac:(discriminate) Hq) as Hra.
  pose proof (coordinator_mail_not_for LLMResponseAgent.name _
                ltac:(discriminate) Hq) as Hllm.
  destruct o as [file_paths|query|]; simpl.
  - destruct (process_documents_effect w self mcp file_paths Hra)
      as (m_ing & _ & _ & _ & _ & _ & H).
    destruct (VectorStore.add_documents w _ _) as [store|e] eqn:E.
    + destruct H as (m & mcp' & -> & Hq' & _ & _ & Hr & _); simpl.
      rewrite Hq'; repeat split; auto.
      * apply Forall_app; split; auto.
      * now rewrite (StoreMore.add_documents_dimension _ _ _ _ E).
    + destruct H as (mcp' & -> & Hq' & _); simpl.
      rewrite Hq'; auto.
  - destruct (CoordinatorAgent.documents_processed self) eqn:D.
    2:{ rewrite (answer_question_not_ready w self mcp query D); simpl.
        repeat split; auto; congruence. }
    pose proof (answer_question_effect w self mcp query D Hf Hllm) as H.
    destruct (VectorStore.search w _ query 5) as [results|e].
    + cbv zeta in H; destruct (truthy (next_trace_id w mcp)).
      * destruct H as (m1 & m2 & r & mcp' & -> & Hq' & _ & _ & _ & _ & Hr & _).
        simpl; rewrite Hq'; repeat split; auto; try congruence.
        apply Forall_app; split; auto.
      * rewrite H; simpl; repeat split; auto; congruence.
    + rewrite H; simpl; repeat split; auto; congruence.
  - repeat split; auto.
Qed.

Lemma run_from_coherent (w : World.t) (ops : list op) :
  forall outs st, coherent st -> coherent (snd (run_from w outs st ops)).
Proof.
  unfold run_from; induction ops as [|o ops IH]; intros outs st H; simpl; auto.
  pose proof (step_coherent w st o H) as H'.
  destruct (step w st o) as [out st']; now apply IH.
Qed.

(** In every state the coordinator reaches, every envelope of the live
    queue is addressed to the coordinator, which never receives: what was
    sent to the retrieval agent and to the response agent has been taken
    by them.  The retrieval agent is initialised exactly when the flag of
    the coordinator is up, and the store keeps the dimension 384. *)
Theorem reachable_states_coherent (w : World.t) (ops : list op) :
  Forall (fun m => MCPProtocol.receiver m = CoordinatorAgent.name)
         (message_queue (snd (snd (run w ops))))
  /\ RetrievalAgent.is_initialized
       (CoordinatorAgent.retrieval_agent (fst (snd (run w ops))))
     = CoordinatorAgent.documents_processed (fst (snd (run w ops)))
  /\ VectorStore.dimension
       (RetrievalAgent.vector_store
          (CoordinatorAgent.retrieval_agent (fst (snd (run w ops))))) = 384.
Proof.
  apply (run_from_coherent w ops [] start).
  repeat split; constructor.
Qed.

Lemma run_ready (w : World.t) (ops : list op) :
  ready_after (fst (run w ops)) = true ->
  CoordinatorAgent.documents_processed (fst (snd (run w ops))) = true
  /\ RetrievalAgent.is_initialized
       (CoordinatorAgent.retrieval_agent (fst (snd (run w ops)))) = true
  /\ Forall (not_for LLMResponseAgent.name)
            (message_queue (snd (snd (run w ops))))
  /\ Forall (not_for RetrievalAgent.name)
            (message_queue (snd (snd (run w ops)))).
Proof.
  intros R.
  destruct (run_settled w ops) as [Hf _].
  destruct (run_from_coherent w ops [] start) as (Hq & Hi & _).
  { repeat split; constructor. }
  fold (run w ops) in *.
  rewrite R in Hf; rewrite Hf in Hi.
  repeat split; auto; apply coordinator_mail_not_for; auto; discriminate.
Qed.

(** A question on a ready pipeline is answered.  In every ready state the
    coordinator reaches, when the search returns [results] and the
    generator returns [text] for the prompt built from them, the answer is
    [text] stripped, with one cited source per search result in ranking
    order, the question, the number of results used, and no error.  (The
    trace id drawn for the call is taken not to be empty.) *)
Theorem answer_question_answers (w : World.t) (ops : list op)
    (query : string) (results : list SearchResult.t) (text : string) :
  ready_after (fst (run w ops)) = true ->
  truthy (next_trace_id w (snd (snd (run w ops)))) = true ->
  VectorStore.search w
    (RetrievalAgent.vector_store
       (CoordinatorAgent.retrieval_agent (fst (snd (run w ops)))))
    query 5 = Ok results ->
  World.generate w
    (LLMResponseAgent.prompt_of
       (fst (LLMResponseAgent.build_context w
               (map RetrievalAgent.chunk_info results))) query)
  = Ok text ->
  fst (fst (CoordinatorAgent.answer_question w (fst (snd (run w ops)))
              (snd (snd (run w ops))) query))
  = {| Response.answer := strip text;
       Response.sources :=
         map LLMResponseAgent.source_of
             (map RetrievalAgent.chunk_info results);
       Response.query := Some query;
       Response.context_used := Some (len results);
       Response.error := None |}.
Proof.
  intros R T Hs Hg.
  destruct (run_ready w ops R) as (Hd & Hi & Hllm & _).
  pose proof (answer_question_effect w _ _ query Hd Hi Hllm) as H.
  rewrite Hs in H; cbv zeta in H; rewrite T, Hg in H.
  destruct H as (m1 & m2 & r & mcp' & -> & _ & _ & _ & _ & _ & _ & _ & _ & _
                 & ->).
  reflexivity.
Qed.

(** A failing search is reported, not raised.  In every ready state the
    coordinator reaches, when the search raises [e] (the embedding of the
    query fails, say), [answer_question] returns the error answer: the
    message of [e] in the answer text and in the error field, no source.
    Nothing is sent: the queue and the history stay as they were. *)
Theorem answer_question_reports_search_failure (w : World.t) (ops : list op)
    (query : string) (e : exn) :
  ready_after (fst (run w ops)) = true ->
  VectorStore.search w
    (RetrievalAgent.vector_store
       (CoordinatorAgent.retrieval_agent (fst (snd (run w ops)))))
    query 5 = Raise e ->
  exists mcp',
    CoordinatorAgent.answer_question w (fst (snd (run w ops)))
                                     (snd (snd (run w ops))) query
    = ({| Response.answer :=
            ("I encountered an error while processing your question: "
               ++ str_exn e)%string;
          Response.sources := [];
          Response.query := None;
          Response.context_used := None;
          Response.error := Some (str_exn e) |},
       fst (snd (run w ops)), mcp')
    /\ message_queue mcp' = message_queue (snd (snd (run w ops)))
    /\ message_history mcp' = message_history (snd (snd (run w ops))).
Proof.
  intros R Hs.
  destruct (run_ready w ops R) as (Hd & Hi & Hllm & _).
  pose proof (answer_question_effect w _ _ query Hd Hi Hllm) as H.
  rewrite Hs in H.
  eexists; split; [exact H|]; split; reflexivity.
Qed.

Lemma answer_question_answers_witness :
  fst (fst (CoordinatorAgent.answer_question Example.world
              (fst (snd (run Example.world
                           [ProcessDocuments Example.batch])))
              (snd (snd (run Example.world
                           [ProcessDocuments Example.batch]))) "beta"))
  = {| Response.answer := strip " An answer. ";
       Response.sources :=
         map LLMResponseAgent.source_of
             (map RetrievalAgent.chunk_info Example.found);
       Response.query := Some "beta";
       Response.context_used := Some (len Example.found);
       Response.error := None |}.
Proof.
  apply (answer_question_answers Example.world
           [ProcessDocuments Example.batch] "beta" Example.found
           " An answer. ").
  - vm_compute; reflexivity.
  - vm_compute; reflexivity.
  - vm_compute; reflexivity.
  - reflexivity.
Defined.

Lemma answer_question_reports_search_failure_witness :
  exists mcp',
    CoordinatorAgent.answer_question Example.world_flaky
      (fst (snd (run Example.world_flaky [ProcessDocuments Example.batch])))
      (snd (snd (run Example.world_flaky [ProcessDocuments Example.batch])))
      "fail"
    = ({| Response.answer :=
            ("I encountered an error while processing your question: "
               ++ str_exn (Exception "CUDA out of memory"))%string;
          Response.sources := [];
          Response.query := None;
          Response.context_used := None;
          Response.error := Some (str_exn (Exception "CUDA out of memory")) |},
       fst (snd (run Example.world_flaky [ProcessDocuments Example.batch])),
       mcp')
    /\ message_queue mcp'
       = message_queue
           (snd (snd (run Example.world_flaky
                        [ProcessDocuments Example.batch])))
    /\ message_history mcp'
       = message_history
           (snd (snd (run Example.world_flaky
                        [ProcessDocuments Example.batch]))).
Proof.
  apply (answer_question_reports_search_failure Example.world_flaky
           [ProcessDocuments Example.batch] "fail"
           (Exception "CUDA out of memory")).
  - vm_compute; reflexivity.
  - vm_compute; reflexivity.
Defined.

(** One trace id per call.  Whatever call is made on the coordinator in a
    state it reaches, the envelopes the call adds to the history (at most
    two) all carry the trace id drawn at the start of the call, provided
    that id is not the empty string. *)
Theorem call_shares_trace_id (w : World.t) (ops : list op) (o : op) :
  truthy (next_trace_id w (snd (snd (run w ops)))) = true ->
  exists added,
    message_history (snd (snd (step w (snd (run w ops)) o)))
    = message_history (snd (snd (run w ops))) ++ added
    /\ Forall (fun m => MCPProtocol.trace_id m
                        = next_trace_id w (snd (snd (run w ops)))) added
    /\ (List.length added <= 2)%nat.
Proof.
  intros T.
  destruct (run_settled w ops) as [Hf Hra].
  destruct (run_from_coherent w ops [] start) as (Hq & Hi & _).
  { repeat split; constructor. }
  fold (run w ops) in *.
  destruct (snd (run w ops)) as [self mcp]; simpl in *.
  pose proof (coordinator_mail_not_for LLMResponseAgent.name _
                ltac:(discriminate) Hq) as Hllm.
  destruct o as [file_paths|query|]; simpl.
  - destruct (process_documents_effect w self mcp file_paths Hra)
      as (m_ing & _ & _ & _ & _ & Hid & H).
    destruct (VectorStore.add_documents w _ _) as [store|e].
    + destruct H as (m & mcp' & -> & _ & Hh & _ & _ & _ & Hid'); simpl.
      exists [m_ing; m]; repeat split; auto.
    + destruct H as (mcp' & -> & _ & Hh); simpl.
      exists [m_ing]; repeat split; auto.
  - destruct (CoordinatorAgent.documents_processed self) eqn:D.
    2:{ rewrite (answer_question_not_ready w self mcp query D); simpl.
        exists []; rewrite app_nil_r; repeat split; auto. }
    pose proof (answer_question_effect w self mcp query D Hi Hllm) as H.
    destruct (VectorStore.search w _ query 5) as [results|e].
    + cbv zeta in H; rewrite T in H.
      destruct H as (m1 & m2 & r & mcp' & -> & _ & Hh & _ & _ & H1 & _ & H2
                     & _); simpl.
      exists [m1; m2]; repeat split; auto.
    + rewrite H; simpl.
      exists []; rewrite app_nil_r; repeat split; auto.
  - exists []; rewrite app_nil_r; repeat split; auto.
Qed.

Lemma call_shares_trace_id_witness :
  exists added,
    message_history
      (snd (snd (step Example.world
                   (snd (run Example.world [ProcessDocuments Example.batch]))
                   (AnswerQuestion "beta"))))
    = message_history
        (snd (snd (run Example.world [ProcessDocuments Example.batch])))
      ++ added
    /\ Forall (fun m =>
                 MCPProtocol.trace_id m
                 = next_trace_id Example.world
                     (snd (snd (run Example.world
                                  [ProcessDocuments Example.batch]))))
              added
    /\ (List.length added <= 2)%nat.
Proof.
  apply (call_shares_trace_id Example.world [ProcessDocuments Example.batch]
           (AnswerQuestion "beta")).
  vm_compute; reflexivity.
Defined.

(** A failed index build.  When the index does not take the documents of
    a batch (the embedding raises, say), [process_documents] returns
    [False] and leaves the retrieval agent, its store and the ready flag
    as they were, with nothing more in the queue; the ingestion agent has
    recorded the documents of the batch all the same, so that its
    statistics count documents the index does not hold. *)
Theorem failed_index_build_keeps_store (w : World.t) (ops : list op)
    (file_paths : list string) (e : exn) :
  VectorStore.add_documents w
    (RetrievalAgent.vector_store
       (CoordinatorAgent.retrieval_agent (fst (snd (run w ops)))))
    (map (IngestionAgent.process_file w) file_paths)
  = Raise e ->
  exists self' mcp',
    CoordinatorAgent.process_documents w (fst (snd (run w ops)))
                                       (snd (snd (run w ops))) file_paths
    = (false, self', mcp')
    /\ CoordinatorAgent.retrieval_agent self'
       = CoordinatorAgent.retrieval_agent (fst (snd (run w ops)))
    /\ CoordinatorAgent.documents_processed self'
       = CoordinatorAgent.documents_processed (fst (snd (run w ops)))
    /\ IngestionAgent.processed_documents
         (CoordinatorAgent.ingestion_agent self')
       = IngestionAgent.processed_documents
           (CoordinatorAgent.ingestion_agent (fst (snd (run w ops))))
         ++ map (IngestionAgent.process_file w) file_paths
    /\ message_queue mcp' = message_queue (snd (snd (run w ops))).
Proof.
  intros E.
  destruct (run_settled w ops) as [_ Hra].
  destruct (process_documents_effect w (fst (snd (run w ops))) _
              file_paths Hra)
    as (m_ing & _ & _ & _ & _ & _ & H).
  cbv zeta in H; rewrite E in H.
  destruct H as (mcp' & -> & Hq & _).
  do 2 eexists; split; [reflexivity|]; simpl; auto.
Qed.

Lemma failed_index_build_keeps_store_witness :
  exists self' mcp',
    CoordinatorAgent.process_documents Example.world_csv
      (fst (snd (run Example.world_csv []))) (snd (snd (run Example.world_csv [])))
      ["notes.txt"]
    = (false, self', mcp')
    /\ CoordinatorAgent.retrieval_agent self'
       = CoordinatorAgent.retrieval_agent
           (fst (snd (run Example.world_csv [])))
    /\ CoordinatorAgent.documents_processed self'
       = CoordinatorAgent.documents_processed
           (fst (snd (run Example.world_csv [])))
    /\ IngestionAgent.processed_documents
         (CoordinatorAgent.ingestion_agent self')
       = IngestionAgent.processed_documents
           (CoordinatorAgent.ingestion_agent
              (fst (snd (run Example.world_csv []))))
         ++ map (IngestionAgent.process_file Example.world_csv) ["notes.txt"]
    /\ message_queue mcp'
       = message_queue (snd (snd (run Example.world_csv []))).
Proof.
  apply (failed_index_build_keeps_store Example.world_csv [] ["notes.txt"]
           (Exception "model not loaded")).
  vm_compute; reflexivity.
Defined.

Lemma add_documents_chunks (w : World.t) (store store' : VectorStore.t)
    (documents : list DocumentParser.Document) :
  VectorStore.add_documents w store documents = Ok store' ->
  VectorStore.chunks store'
  = VectorStore.chunks store ++ map fst (StoreRun.entries documents).
Proof.
  unfold VectorStore.add_documents; rewrite StoreFacts.gather_entries.
  destruct (map fst (StoreRun.entries documents)) as [|c cs] eqn:E.
  - intros H; injection H as <-; now rewrite app_nil_r.
  - destruct (World.encode w (c :: cs)); [simpl|discriminate].
    destruct (Faiss.add (VectorStore.index store) a); [simpl|discriminate].
    intros H; injection H as <-; reflexivity.
Qed.

(** Batches add up.  When the index takes the documents of a batch,
    [process_documents] returns [True], raises the ready flag, and the
    store holds the chunks it held before followed by those of the batch:
    a later batch extends the index, it does not replace it.  The
    ingestion agent lists the documents of all batches. *)
Theorem process_documents_extends_index (w : World.t) (ops : list op)
    (file_paths : list string) (store : VectorStore.t) :
  VectorStore.add_documents w
    (RetrievalAgent.vector_store
       (CoordinatorAgent.retrieval_agent (fst (snd (run w ops)))))
    (map (IngestionAgent.process_file w) file_paths)
  = Ok store ->
  exists self' mcp',
    CoordinatorAgent.process_documents w (fst (snd (run w ops)))
                                       (snd (snd (run w ops))) file_paths
    = (true, self', mcp')
    /\ CoordinatorAgent.documents_processed self' = true
    /\ RetrievalAgent.vector_store (CoordinatorAgent.retrieval_agent self')
       = store
    /\ VectorStore.chunks store
       = VectorStore.chunks
           (RetrievalAgent.vector_store
              (CoordinatorAgent.retrieval_agent (fst (snd (run w ops)))))
         ++ List.concat
              (map (fun file_path =>
                      DocumentParser.chunks
                        (IngestionAgent.process_file w file_path))
                   file_paths)
    /\ IngestionAgent.processed_documents
         (CoordinatorAgent.ingestion_agent self')
       = IngestionAgent.processed_documents
           (CoordinatorAgent.ingestion_agent (fst (snd (run w ops))))
         ++ map (IngestionAgent.process_file w) file_paths.
Proof.
  intros E.
  destruct (run_settled w ops) as [_ Hra].
  destruct (process_documents_effect w (fst (snd (run w ops))) _
              file_paths Hra)
    as (m_ing & _ & _ & _ & _ & _ & H).
  cbv zeta in H; rewrite E in H.
  destruct H as (m & mcp' & -> & _).
  do 2 eexists; split; [reflexivity|]; simpl.
  repeat split.
  rewrite (add_documents_chunks _ _ _ _ E); f_equal.
  clear; induction file_paths as [|p ps IH]; simpl; auto.
  unfold StoreRun.entries in *; simpl; rewrite map_app, IH; f_equal.
  unfold StoreRun.entries_of; rewrite map_map.
  generalize (DocumentParser.chunks (IngestionAgent.process_file w p)).
  intros l; unfold enumerate.
  generalize 0%nat; induction l as [|c l IHl]; intros n; simpl; auto.
  now rewrite IHl.
Qed.

Lemma process_documents_extends_index_witness :
  exists self' mcp',
    CoordinatorAgent.process_documents Example.world
      (fst (snd (run Example.world [ProcessDocuments Example.batch])))
      (snd (snd (run Example.world [ProcessDocuments Example.batch])))
      ["notes.txt"]
    = (true, self', mcp')
    /\ CoordinatorAgent.documents_processed self' = true
    /\ RetrievalAgent.vector_store (CoordinatorAgent.retrieval_agent self')
       = Example.twice
    /\ VectorStore.chunks
         Example.twice
       = VectorStore.chunks
           (RetrievalAgent.vector_store
              (CoordinatorAgent.retrieval_agent
                 (fst (snd (run Example.world
                              [ProcessDocuments Example.batch])))))
         ++ List.concat
              (map (fun file_path =>
                      DocumentParser.chunks
                        (IngestionAgent.process_file Example.world file_path))
                   ["notes.txt"])
    /\ IngestionAgent.processed_documents
         (CoordinatorAgent.ingestion_agent self')
       = IngestionAgent.processed_documents
           (CoordinatorAgent.ingestion_agent
              (fst (snd (run Example.world [ProcessDocuments Example.batch]))))
         ++ map (IngestionAgent.process_file Example.world) ["notes.txt"].
Proof.
  apply (process_documents_extends_index Example.world
           [ProcessDocuments Example.batch] ["notes.txt"]).
  vm_compute; reflexivity.
Defined.

End PipelineMore.
